(** * asanawarrior: the reference-data cache of package [asana] (cache.go)

    A shallow embedding of [acache] and its methods.  The cache is a Go
    struct guarded by an embedded [sync.RWMutex]; its methods are embedded
    as computations in a small monad that threads the cache and the remote
    service, can end in a panic or in [log.Fatalf], and records the events
    of the run (lock operations, field accesses, remote calls) in source
    order. *)

From Stdlib Require Import Ascii List Bool Arith Lia.
From stdpp Require Import base option list strings gmap fin_maps.

(** ** Strings

    Go strings are byte sequences; they are embedded as [string]. *)

(** [strings.HasSuffix(s, suffix)]:
    [len(s) >= len(suffix) && s[len(s)-len(suffix):] == suffix]. *)
Definition strings_HasSuffix (s suffix : string) : bool :=
  (String.length suffix <=? String.length s)
  && String.eqb
       (String.substring (String.length s - String.length suffix)
                  (String.length suffix) s)
       suffix.

(** [strings.Map(mapping, s)] where [mapping] returns either its argument or
    [-1] (drop).  Go iterates over the runes of [s].  A byte below 0x80 is
    always decoded as a rune of its own, and every other rune (multi-byte
    or [utf8.RuneError] for a malformed byte) is at least 0x80, so with the
    mapping of [AddSection], which keeps ASCII letters and digits only, the
    rune loop is this byte loop. *)
Fixpoint strings_Map (mapping : ascii -> option ascii) (s : string) : string :=
  match s with
  | EmptyString => EmptyString
  | String r s' =>
      match mapping r with
      | Some r' => String r' (strings_Map mapping s')
      | None => strings_Map mapping s'
      end
  end.

(** The function literal passed to [strings.Map] in [AddSection]:
    ['A' <= r && r <= 'Z' || 'a' <= r && r <= 'z' || '0' <= r && r <= '9']. *)
Definition is_alnum (r : ascii) : bool :=
  let n := nat_of_ascii r in
  (65 <=? n) && (n <=? 90) || (97 <=? n) && (n <=? 122)
  || (48 <=? n) && (n <=? 57).

Definition keep_alnum (r : ascii) : option ascii :=
  if is_alnum r then Some r else None.

(** [strings.Split(s, sep)] for a one-byte separator: never empty. *)
Fixpoint strings_Split (s : string) (sep : ascii) : list string :=
  match s with
  | EmptyString => [EmptyString]
  | String a s' =>
      if Ascii.eqb a sep then EmptyString :: strings_Split s' sep
      else match strings_Split s' sep with
           | h :: t => String a h :: t
           | [] => [String a EmptyString]
           end
  end.

(** ** Data model *)

(** Modelled from the spec: the declaration of [Basic] (the spec's Entity)
    is not in cache.go; these are the three fields that cache.go uses. *)
Record Basic := mkBasic { Id : string; Name : string; Email : string }.

Global Instance Basic_eq_dec : EqDecision Basic.
Proof. solve_decision. Defined.

Definition set_Name (b : Basic) (n : string) : Basic :=
  {| Id := Id b; Name := n; Email := Email b |}.

Definition set_Email (b : Basic) (e : string) : Basic :=
  {| Id := Id b; Name := Name b; Email := e |}.

(** [type asection struct { list []Basic }] *)
Record asection := mkSection { seclist : list Basic }.

(** A Go map is [nil] until it is made: reading a nil map gives the zero
    value, storing into it panics. *)
Abbreviation gomap V := (option (gmap string V)).

Definition map_read {V} (m : gomap V) (k : string) : option V :=
  m ≫= (λ g, g !! k).

Definition map_store {V} (m : gomap V) (k : string) (v : V) : option (gomap V) :=
  match m with
  | Some g => Some (Some (<[k := v]> g))
  | None => None
  end.

(** [type acache struct]; the embedded [sync.RWMutex] is observed through
    the lock events of a run. *)
Record acache := mkCache {
  workspaces : list Basic;
  defaultWork : string;
  projects : list Basic;
  tags : list Basic;
  users : list Basic;
  tagmap : gomap string;
  usermap : gomap string;
  sections : gomap asection
}.

(** The zero value [var cache acache]. *)
Definition zero_cache : acache :=
  mkCache [] "" [] [] [] None None None.

(** Go errors: what the remote reports, and [errors.Wrap(err, label)]. *)
Inductive error :=
| RemoteError (msg : string)
| Wrap (cause : error) (label : string).

Inductive field :=
| FWorkspaces | FDefaultWork | FProjects | FTags | FUsers
| FTagmap | FUsermap | FSections.

Inductive event :=
| EvLock | EvUnlock | EvRLock | EvRUnlock
| EvRead (f : field)
| EvWrite (f : field)
| EvGet (path sortby : string)
| EvPost (method path : string) (v : list (string * string)).

Global Instance field_eq_dec : EqDecision field.
Proof. solve_decision. Defined.

Global Instance event_eq_dec : EqDecision event.
Proof. solve_decision. Defined.

(** How a call ends: it returns, it panics, or the process exits in
    [log.Fatalf]. *)
Inductive res (A : Type) :=
| Ret (a : A)
| Panic
| Fatal.
Arguments Ret {A} a.
Arguments Panic {A}.
Arguments Fatal {A}.

(** ** Lock discipline of a run *)

Inductive lockmode := Unlocked | Shared | Exclusive.


Definition is_read (e : event) : bool :=
  match e with
  | EvRead _ => true
  | _ => false
  end.

Definition mode_step (m : lockmode) (e : event) : lockmode :=
  match e with
  | EvLock => Exclusive
  | EvRLock => Shared
  | EvUnlock | EvRUnlock => Unlocked
  | _ => m
  end.

(** Every read of a cache field happens while the caller holds the lock
    (shared or exclusive) and every write while it holds it exclusively. *)
Fixpoint guarded (m : lockmode) (t : list event) : bool :=
  match t with
  | [] => true
  | e :: t' =>
      match e, m with
      | EvRead _, Unlocked => false
      | EvWrite _, Unlocked | EvWrite _, Shared => false
      | _, _ => guarded (mode_step m e) t'
      end
  end.

(** The run of a reader: [RLock], then reads only, then [RUnlock] as the
    last event. *)
Definition shared_section (t : list event) : bool :=
  match t with
  | EvRLock :: t' =>
      match rev t' with
      | EvRUnlock :: body => forallb is_read body
      | _ => false
      end
  | _ => false
  end.


(** ** A scripted remote

    The remote service is a parameter of the cache.  To run the cache on
    concrete inputs, this remote answers the calls of a run with the replies
    of a script, in order; a call past the end of the script fails. *)
Record script := mkScript {
  gets : list (list Basic * option error);
  posts : list (string * option error)
}.

Definition script_getVarious (path sortby : string) (w : script)
  : (list Basic * option error) * script :=
  match gets w with
  | r :: rest => (r, mkScript rest (posts w))
  | [] => (([], Some (RemoteError "EOF")), w)
  end.

Definition script_runPost (method path : string) (v : list (string * string))
    (w : script) : (string * option error) * script :=
  match posts w with
  | r :: rest => (r, mkScript (gets w) rest)
  | [] => (("", Some (RemoteError "EOF")), w)
  end.

(** A stand-in for decoding the reply of a creation call: the scripted reply
    is [id,name]. *)
Definition script_Unmarshal (resp : string) : option Basic :=
  match strings_Split resp "," with
  | [i; n] => Some (mkBasic i n "")
  | _ => None
  end.

(** ** The cache operations *)

Section Cache.
Context {World : Type}.

(** [getVarious(path, sortby)], not in cache.go: the list it returns and
    its error (both are assigned by the callers), and the remote after
    the call. *)
Variable remote_getVarious :
  string → string → World → (list Basic * option error) * World.

(** [runPost(method, path, values)], not in cache.go. *)
Variable remote_runPost :
  string → string → list (string * string) → World
  → (string * option error) * World.

(** [json.Unmarshal(resp, &bdo)] followed by [bdo.Data]; [None] when it
    returns an error. *)
Variable json_Unmarshal : string → option Basic.

(** The flag [*domain]. *)
Variable domain : string.

Definition state : Type := acache * World.

Definition M (A : Type) : Type := state → res A * state * list event.

Definition ret {A} (a : A) : M A := λ st, (Ret a, st, []).

Definition bind {A B} (m : M A) (k : A → M B) : M B := λ st,
  match m st with
  | (Ret a, st', t) => let '(r, st'', t') := k a st' in (r, st'', t ++ t')
  | (Panic, st', t) => (Panic, st', t)
  | (Fatal, st', t) => (Fatal, st', t)
  end.

Notation "x <- m ;; k" := (bind m (λ x, k))
  (at level 100, m at next level, right associativity).
Notation "m ;; k" := (bind m (λ _, k))
  (at level 100, right associativity).

(** [defer d] before [body]: [d] runs when [body] returns or panics, not
    when the process exits in [log.Fatalf]. *)
Definition defer {A} (d : M unit) (body : M A) : M A := λ st,
  match body st with
  | (Fatal, st', t) => (Fatal, st', t)
  | (r, st', t) => let '(_, st'', t') := d st' in (r, st'', t ++ t')
  end.

Definition emit (e : event) : M unit := λ st, (Ret tt, st, [e]).
Definition Lock : M unit := emit EvLock.
Definition Unlock : M unit := emit EvUnlock.
Definition RLock : M unit := emit EvRLock.
Definition RUnlock : M unit := emit EvRUnlock.

Definition panic {A} : M A := λ st, (Panic, st, []).
Definition fatal {A} : M A := λ st, (Fatal, st, []).

Definition load {A} (f : field) (proj : acache → A) : M A := λ st,
  (Ret (proj st.1), st, [EvRead f]).

Definition store (f : field) (upd : acache → acache) : M unit := λ st,
  (Ret tt, (upd st.1, st.2), [EvWrite f]).

Definition getVarious (path sortby : string)
  : M (list Basic * option error) := λ st,
  let '(r, w') := remote_getVarious path sortby st.2 in
  (Ret r, (st.1, w'), [EvGet path sortby]).

Definition runPost (method path : string) (v : list (string * string))
  : M (string * option error) := λ st,
  let '(r, w') := remote_runPost method path v st.2 in
  (Ret r, (st.1, w'), [EvPost method path v]).

Fixpoint for_range {A} (l : list A) (body : A → M unit) : M unit :=
  match l with
  | [] => ret tt
  | x :: l' => body x ;; for_range l' body
  end.

Definition with_workspaces (v : list Basic) (c : acache) : acache :=
  mkCache v (defaultWork c) (projects c) (tags c) (users c)
          (tagmap c) (usermap c) (sections c).
Definition with_defaultWork (v : string) (c : acache) : acache :=
  mkCache (workspaces c) v (projects c) (tags c) (users c)
          (tagmap c) (usermap c) (sections c).
Definition with_projects (v : list Basic) (c : acache) : acache :=
  mkCache (workspaces c) (defaultWork c) v (tags c) (users c)
          (tagmap c) (usermap c) (sections c).
Definition with_tags (v : list Basic) (c : acache) : acache :=
  mkCache (workspaces c) (defaultWork c) (projects c) v (users c)
          (tagmap c) (usermap c) (sections c).
Definition with_users (v : list Basic) (c : acache) : acache :=
  mkCache (workspaces c) (defaultWork c) (projects c) (tags c) v
          (tagmap c) (usermap c) (sections c).
Definition with_tagmap (v : gomap string) (c : acache) : acache :=
  mkCache (workspaces c) (defaultWork c) (projects c) (tags c) (users c)
          v (usermap c) (sections c).
Definition with_usermap (v : gomap string) (c : acache) : acache :=
  mkCache (workspaces c) (defaultWork c) (projects c) (tags c) (users c)
          (tagmap c) v (sections c).
Definition with_sections (v : gomap asection) (c : acache) : acache :=
  mkCache (workspaces c) (defaultWork c) (projects c) (tags c) (users c)
          (tagmap c) (usermap c) v.

(** [c.m[k] = v] on a map field: panics on a nil map. *)
Definition map_assign {V} (f : field) (proj : acache → gomap V)
    (upd : gomap V → acache → acache) (k : string) (v : V) : M unit := λ st,
  match map_store (proj st.1) k v with
  | Some m' => (Ret tt, (upd m' st.1, st.2), [EvWrite f])
  | None => (Panic, st, [EvWrite f])
  end.

(** [for _, b := range l { if key(b) == k { return b } }] *)
Definition scan (key : Basic → string) (k : string) (l : list Basic)
  : option Basic :=
  find (λ b, String.eqb (key b) k) l.

(** [updateTags]: the caller holds the lock. *)
Definition updateTags : M (option error) :=
  r <- getVarious "tags" "name" ;;
  store FTags (with_tags r.1) ;;
  match r.2 with
  | Some e => ret (Some e)
  | None =>
      store FTagmap (with_tagmap (Some ∅)) ;;
      ts <- load FTags tags ;;
      for_range ts (λ t,
        map_assign FTagmap tagmap with_tagmap (Id t) (Name t)) ;;
      ret None
  end.

(** [u.Email = strings.Split(u.Email, "@")[0]] *)
Definition local_part (u : Basic) : Basic :=
  set_Email u (hd "" (strings_Split (Email u) "@")).

Definition update : M (option error) :=
  Lock ;;
  defer Unlock (
    r <- getVarious "workspaces" "name" ;;
    store FWorkspaces (with_workspaces r.1) ;;
    match r.2 with
    | Some e => ret (Some (Wrap e "workspaces"))
    | None =>
    ws <- load FWorkspaces workspaces ;;
    for_range ws (λ w,
      if String.eqb (Name w) domain
      then store FDefaultWork (with_defaultWork (Id w))
      else ret tt) ;;
    dw <- load FDefaultWork defaultWork ;;
    if String.eqb dw "" then fatal else
    dw <- load FDefaultWork defaultWork ;;
    r <- getVarious ("workspaces/" +:+ dw +:+ "/projects") "name" ;;
    store FProjects (with_projects r.1) ;;
    match r.2 with
    | Some e => ret (Some (Wrap e "projects"))
    | None =>
    err <- updateTags ;;
    match err with
    | Some e => ret (Some (Wrap e "updateTags"))
    | None =>
    r <- getVarious "users" "email" ;;
    store FUsers (with_users r.1) ;;
    match r.2 with
    | Some e => ret (Some (Wrap e "users"))
    | None =>
    us <- load FUsers users ;;
    for_range (seq 0 (length us)) (λ i,
      store FUsers (λ c, with_users (alter local_part i (users c)) c)) ;;
    store FUsermap (with_usermap (Some ∅)) ;;
    us <- load FUsers users ;;
    for_range us (λ u,
      map_assign FUsermap usermap with_usermap (Id u) (Email u)) ;;
    store FSections (with_sections (Some ∅)) ;;
    ret None
    end end end end).

Definition Workspace : M string :=
  RLock ;; defer RUnlock (load FDefaultWork defaultWork).

(** The copy that [Projects] returns is the list itself. *)
Definition Projects : M (list Basic) :=
  RLock ;; defer RUnlock (load FProjects projects).

Definition ProjectId (name : string) : M string :=
  RLock ;;
  defer RUnlock (
    ps <- load FProjects projects ;;
    ret (from_option Id "" (scan Name name ps))).

Definition User (uid : string) : M string :=
  RLock ;;
  defer RUnlock (
    m <- load FUsermap usermap ;;
    ret (default "" (map_read m uid))).

Definition UserId (email : string) : M string :=
  RLock ;;
  defer RUnlock (
    us <- load FUsers users ;;
    ret (from_option Id "" (scan Email email us))).

Definition Tag (uid : string) : M string :=
  RLock ;;
  defer RUnlock (
    m <- load FTagmap tagmap ;;
    ret (default "" (map_read m uid))).

(** [c.RLock(); c.RUnlock()]: the unlock is not deferred. *)
Definition TagId (tname : string) : M string :=
  RLock ;;
  RUnlock ;;
  ts <- load FTags tags ;;
  ret (from_option Id "" (scan Name tname ts)).

Definition CreateTag (tname : string) : M string :=
  Lock ;;
  defer Unlock (
    ts <- load FTags tags ;;
    match scan Name tname ts with
    | Some t => ret (Id t)
    | None =>
        dw <- load FDefaultWork defaultWork ;;
        let v := [("workspace", dw); ("name", tname)] in
        r <- runPost "POST" "tags" v ;;
        match r.2 with
        | Some _ => ret ""
        | None =>
            match json_Unmarshal r.1 with
            | None => ret ""
            | Some data =>
                store FTags (λ c, with_tags (tags c ++ [data]) c) ;;
                map_assign FTagmap tagmap with_tagmap (Id data) (Name data) ;;
                ret (Id data)
            end
        end
    end).

(** The loop of [AddSection] over [s.list]: the first entry with the
    given Id gets the new Name; [None] when there is none. *)
Fixpoint rename_first (id name : string) (l : list Basic)
  : option (list Basic) :=
  match l with
  | [] => None
  | b :: l' =>
      if String.eqb (Id b) id then Some (set_Name b name :: l')
      else cons b <$> rename_first id name l'
  end.

(** A write through the pointer [s] that [c.sections[projId]] holds. *)
Definition put_section (projId : string) (s : asection) : M unit :=
  store FSections (λ c, with_sections (insert projId s <$> sections c) c).

Definition AddSection (projId : string) (sec : Basic) : M string :=
  Lock ;;
  defer Unlock (
    m <- load FSections sections ;;
    s <- match map_read m projId with
         | Some s => ret s
         | None =>
             map_assign FSections sections with_sections
                        projId (mkSection []) ;;
             ret (mkSection [])
         end ;;
    if negb (strings_HasSuffix (Name sec) ":") then ret "" else
    let sec := set_Name sec (strings_Map keep_alnum (Name sec)) in
    emit (EvRead FSections) ;;
    match rename_first (Id sec) (Name sec) (seclist s) with
    | Some l' => put_section projId (mkSection l') ;; ret (Name sec)
    | None =>
        put_section projId (mkSection (seclist s ++ [sec])) ;;
        ret (Name sec)
    end).

Definition SectionName (projId secId : string) : M string :=
  RLock ;;
  defer RUnlock (
    m <- load FSections sections ;;
    match map_read m projId with
    | None => ret ""
    | Some s => ret (from_option Name "" (scan Id secId (seclist s)))
    end).

Definition SectionId (projId sectionName : string) : M string :=
  RLock ;;
  defer RUnlock (
    m <- load FSections sections ;;
    match map_read m projId with
    | None => ret ""
    | Some s => ret (from_option Id "" (scan Name sectionName (seclist s)))
    end).

End Cache.

(** ** What a run yields *)

(** The value a call returned, if it returned. *)
Definition returned {A S} (x : res A * S * list event) (a : A) : Prop :=
  x.1.1 = Ret a.

Definition final {A S} (x : res A * S * list event) : S := x.1.2.

Definition events {A S} (x : res A * S * list event) : list event := x.2.

Definition is_post (e : event) : bool :=
  match e with
  | EvPost _ _ _ => true
  | _ => false
  end.

(** The remote creation calls of a run. *)
Definition remote_creations (t : list event) : list event := filter is_post t.

(** The section entries registered for a project ([nil] when it has no
    list). *)
Definition entries (c : acache) (projId : string) : list Basic :=
  from_option seclist [] (map_read (sections c) projId).

(** How many entities of a sequence carry a given Name. *)
Definition count_named (name : string) (l : list Basic) : nat :=
  length (filter (λ b, Name b = name) l).

(** Step 2 of [update]: the Id of the last workspace named [domain], or
    what [defaultWork] held when there is none. *)
Definition resolve (domain : string) (ws : list Basic) (d : string) : string :=
  foldl (λ d w, if String.eqb (Name w) domain then Id w else d) d ws.

(** The index that the loops [m[b.Id] = val(b)] build. *)
Definition index_by (val : Basic → string) (l : list Basic)
    (g : gmap string string) : gmap string string :=
  foldl (λ g b, <[Id b := val b]> g) g l.




(** The normalization of a section name in the words of the specification:
    every character that is not an ASCII letter or digit is deleted. *)
Definition letters_and_digits : list ascii :=
  String.list_ascii_of_string
    "ABCDEFGHIJKLMNOPQRSTUVWXYZabcdefghijklmnopqrstuvwxyz0123456789".

Definition delete_non_alnum (s : string) : string :=
  String.string_of_list_ascii
    (filter (λ a, a ∈ letters_and_digits) (String.list_ascii_of_string s)).

(** What [AddSection] makes of a section list: rename the first entry with
    the Id, or append. *)
Definition add_entry (sec : Basic) (l : list Basic) : list Basic :=
  default (l ++ [sec]) (rename_first (Id sec) (Name sec) l).



(** ** Concrete caches and remotes for the examples *)

Definition tag_x1 : Basic := mkBasic "1" "x" "".
Definition tag_x2 : Basic := mkBasic "2" "x" "".

(** A populated cache with one project and no tags. *)
Definition acme_cache : acache :=
  mkCache [mkBasic "w1" "acme" ""] "w1" [mkBasic "p1" "Proj" ""] [] []
          (Some ∅) (Some ∅) (Some ∅).

(** The same cache with two sections registered under project [p1]. *)
Definition board_cache : acache :=
  mkCache [mkBasic "w1" "acme" ""] "w1" [mkBasic "p1" "Proj" ""] [] []
          (Some ∅) (Some ∅)
          (Some {["p1" := mkSection [mkBasic "1" "InProgress" "";
                                     mkBasic "2" "Done" ""]]}).

(** A remote that is not called. *)
Definition silent : script := mkScript [] [].

(** A remote that creates tag [t9] named [x]. *)
Definition creates_x : script := mkScript [] [("t9,x", None)].

(** A remote none of whose workspaces is named [acme]. *)
Definition other_workspace : script :=
  mkScript [([mkBasic "w2" "other" ""], None); ([], None); ([], None);
            ([], None)] [].

(** A remote whose projects fetch fails. *)
Definition projects_down : script :=
  mkScript [([mkBasic "w9" "acme" ""], None);
            ([], Some (RemoteError "timeout"))] [].

(** A remote with two tags named [x]. *)
Definition twin_tags : script :=
  mkScript [([mkBasic "w1" "acme" ""], None); ([], None);
            ([tag_x1; tag_x2], None); ([], None)] [].

(** The cache and the remote after an [update] that fetched the two tags
    named [x]. *)
Definition twin_state : acache * script :=
  final (update script_getVarious "acme" (zero_cache, twin_tags)).

(** A remote with two tags of different names and one user. *)
Definition plain_tags : script :=
  mkScript [([mkBasic "w1" "acme" ""], None); ([mkBasic "p1" "Proj" ""], None);
            ([mkBasic "t1" "home" ""; mkBasic "t2" "work" ""], None);
            ([mkBasic "u1" "Jane" "jane.doe@example.com"], None)] [].



(** ** Further observations *)

Definition is_get (e : event) : bool :=
  match e with
  | EvGet _ _ => true
  | _ => false
  end.

Definition is_remote (e : event) : bool := is_get e || is_post e.

(** The fetches of a run, in order. *)
Definition fetches (t : list event) : list event := List.filter is_get t.

(** The writes of [defaultWork] of a run. *)
Definition is_defaultWork_write (e : event) : bool :=
  match e with
  | EvWrite FDefaultWork => true
  | _ => false
  end.

(** A computation none of whose runs contains an event that satisfies
    [P]. *)
Definition free_of (P : event → bool) {A S}
    (m : S → res A * S * list event) : Prop :=
  ∀ st, forallb (λ e, negb (P e)) (m st).2 = true.

(** A string of ASCII letters and digits only. *)
Definition alnum_only (s : string) : Prop :=
  Forall (λ a, a ∈ letters_and_digits) (String.list_ascii_of_string s).

(** The characters of a string. *)
Definition chars (s : string) : list ascii := String.list_ascii_of_string s.

(** No project holds two sections with the same Id. *)
Definition section_ids_unique (c : acache) : Prop :=
  ∀ p, NoDup (Id <$> entries c p).

(** Every registered section has a Name of ASCII letters and digits only. *)
Definition section_names_alnum (c : acache) : Prop :=
  ∀ p b, b ∈ entries c p → alnum_only (Name b).

(** The three maps of the cache have been made. *)
Definition maps_made (c : acache) : Prop :=
  is_Some (tagmap c) ∧ is_Some (usermap c) ∧ is_Some (sections c).

(** ** Further remotes for the examples *)

(** A remote whose workspaces fetch fails. *)
Definition workspaces_down : script :=
  mkScript [([], Some (RemoteError "timeout"))] [].

(** A remote whose creation call fails. *)
Definition post_down : script :=
  mkScript [] [("", Some (RemoteError "timeout"))].

(** A remote with two workspaces named [acme]. *)
Definition two_acme : script :=
  mkScript [([mkBasic "w1" "acme" ""; mkBasic "w2" "other" "";
              mkBasic "w3" "acme" ""], None);
            ([], None); ([], None); ([], None)] [].

(** * Properties *)

(** ** Strings *)

Lemma keep_alnum_spec (a : ascii) :
  is_alnum a = bool_decide (a ∈ letters_and_digits).
Proof.
  destruct a as [[] [] [] [] [] [] [] []]; vm_compute; reflexivity.
Qed.

(** The byte loop of [strings.Map] with the mapping of [AddSection] deletes
    exactly the characters that are not ASCII letters or digits. *)
Lemma strings_Map_keep_alnum (s : string) :
  strings_Map keep_alnum s = delete_non_alnum s.
Proof.
  unfold delete_non_alnum.
  induction s as [|a s IH]; [reflexivity|].
  cbn [strings_Map String.list_ascii_of_string]. unfold keep_alnum at 1.
  rewrite keep_alnum_spec, filter_cons.
  case_bool_decide; destruct (decide _); try contradiction;
    cbn [String.string_of_list_ascii]; by rewrite IH.
Qed.

Lemma strings_Map_no_alnum (s : string) :
  Forall (λ a, is_alnum a = false) (String.list_ascii_of_string s) →
  strings_Map keep_alnum s = "".
Proof.
  induction s as [|a s IH]; [reflexivity|].
  cbn [strings_Map String.list_ascii_of_string]. intros H.
  apply Forall_cons in H as [Ha Hs]. unfold keep_alnum at 1.
  rewrite Ha. by apply IH.
Qed.

(** ** Scans *)

Lemma scan_Some key k l b :
  scan key k l = Some b → b ∈ l ∧ key b = k.
Proof.
  unfold scan. intros H. apply find_some in H as [Hin Heq].
  apply String.eqb_eq in Heq. by rewrite list_elem_of_In.
Qed.

Lemma scan_None key k l :
  scan key k l = None ↔ k ∉ key <$> l.
Proof.
  unfold scan. induction l as [|b l IH]; cbn [find fmap list_fmap].
  - split; [intros _; apply not_elem_of_nil | done].
  - rewrite not_elem_of_cons. destruct (String.eqb (key b) k) eqn:E.
    + apply String.eqb_eq in E. split; [done | intros [? _]; congruence].
    + apply String.eqb_neq in E. rewrite IH. intuition congruence.
Qed.

Lemma scan_app_r key k l l' :
  scan key k l = None → scan key k (l ++ l') = scan key k l'.
Proof.
  unfold scan. induction l as [|a l IH]; [done|].
  cbn [app find]. destruct (String.eqb (key a) k); [done | apply IH].
Qed.

(** With pairwise distinct keys, the scan finds each element itself. *)
Lemma scan_NoDup key l b :
  NoDup (key <$> l) → b ∈ l → scan key (key b) l = Some b.
Proof.
  unfold scan. induction l as [|a l IH]; intros Hnd Hin.
  - by apply elem_of_nil in Hin.
  - cbn [fmap list_fmap] in Hnd. apply NoDup_cons in Hnd as [Ha Hnd].
    cbn [find]. apply elem_of_cons in Hin as [->|Hin].
    + by rewrite String.eqb_refl.
    + destruct (String.eqb (key a) (key b)) eqn:E; [|by apply IH].
      apply String.eqb_eq in E. exfalso. apply Ha. rewrite E.
      by apply list_elem_of_fmap_2.
Qed.

(** ** The section list of a project *)

Lemma rename_first_None id n l :
  rename_first id n l = None ↔ id ∉ Id <$> l.
Proof.
  induction l as [|b l IH]; cbn [rename_first fmap list_fmap].
  - split; [intros _; apply not_elem_of_nil | done].
  - rewrite not_elem_of_cons. destruct (String.eqb (Id b) id) eqn:E.
    + apply String.eqb_eq in E. split; [done | intros [? _]; congruence].
    + apply String.eqb_neq in E. rewrite <- IH.
      destruct (rename_first id n l); cbn; intuition congruence.
Qed.

Lemma rename_first_length id n l l' :
  rename_first id n l = Some l' → length l' = length l.
Proof.
  revert l'. induction l as [|b l IH]; intros l'; cbn [rename_first]; [done|].
  destruct (String.eqb (Id b) id).
  - intros [= <-]. reflexivity.
  - destruct (rename_first id n l) as [l0|]; cbn; [|done].
    intros [= <-]. cbn. f_equal. by apply IH.
Qed.

Lemma rename_first_scan id n l l' :
  rename_first id n l = Some l' →
  ∃ b, scan Id id l' = Some b ∧ Name b = n ∧ Id b = id.
Proof.
  revert l'. induction l as [|b l IH]; intros l'; cbn [rename_first]; [done|].
  destruct (String.eqb (Id b) id) eqn:E.
  - intros [= <-]. exists (set_Name b n). unfold scan. cbn [find set_Name Id].
    rewrite E. apply String.eqb_eq in E. done.
  - destruct (rename_first id n l) as [l0|]; cbn; [|done].
    intros [= <-]. destruct (IH l0 eq_refl) as (b' & Hs & Hn & Hi).
    exists b'. unfold scan in *. cbn [find]. by rewrite E.
Qed.

Lemma add_entry_scan sec l :
  ∃ b, scan Id (Id sec) (add_entry sec l) = Some b
       ∧ Name b = Name sec ∧ Id b = Id sec.
Proof.
  unfold add_entry. destruct (rename_first (Id sec) (Name sec) l) as [l'|] eqn:E.
  - by apply rename_first_scan in E.
  - exists sec. split; [|done]. change (default (l ++ [sec]) None) with (l ++ [sec]).
    apply rename_first_None in E. apply (scan_None Id) in E.
    rewrite (scan_app_r _ _ _ _ E). unfold scan. cbn [find].
    by rewrite String.eqb_refl.
Qed.

Lemma add_entry_length_registered sec l :
  Id sec ∈ Id <$> l → length (add_entry sec l) = length l.
Proof.
  intros Hin. unfold add_entry.
  destruct (rename_first (Id sec) (Name sec) l) as [l'|] eqn:E.
  - cbn. by apply rename_first_length in E.
  - by apply rename_first_None in E.
Qed.

Lemma add_entry_elem sec l :
  ∃ b, b ∈ add_entry sec l ∧ Id b = Id sec ∧ Name b = Name sec.
Proof.
  destruct (add_entry_scan sec l) as (b & Hs & Hn & Hi).
  exists b. apply scan_Some in Hs as [Hin _]. done.
Qed.

(** ** Runs of the lookups and of [AddSection] *)

Section Runs.
Context {World : Type}.
Implicit Types (c : acache) (w : World) (g : gmap string asection).

Lemma with_sections_id c : with_sections (sections c) c = c.
Proof. by destruct c. Qed.

Lemma entries_with_sections c g p s :
  entries (with_sections (Some (<[p := s]> g)) c) p = seclist s.
Proof. unfold entries, map_read. cbn. by rewrite lookup_insert_eq. Qed.

Lemma entries_with_sections_ne c g p q s :
  sections c = Some g → p ≠ q →
  entries (with_sections (Some (<[p := s]> g)) c) q = entries c q.
Proof.
  intros Hg Hne. unfold entries, map_read. cbn. rewrite Hg. cbn.
  by rewrite lookup_insert_ne.
Qed.

Lemma Workspace_run c w :
  Workspace (c, w)
  = (Ret (defaultWork c), (c, w), [EvRLock; EvRead FDefaultWork; EvRUnlock]).
Proof. reflexivity. Qed.

Lemma Projects_run c w :
  Projects (c, w)
  = (Ret (projects c), (c, w), [EvRLock; EvRead FProjects; EvRUnlock]).
Proof. reflexivity. Qed.

Lemma ProjectId_run name c w :
  ProjectId name (c, w)
  = (Ret (from_option Id "" (scan Name name (projects c))), (c, w),
     [EvRLock; EvRead FProjects; EvRUnlock]).
Proof. reflexivity. Qed.

Lemma User_run uid c w :
  User uid (c, w)
  = (Ret (default "" (map_read (usermap c) uid)), (c, w),
     [EvRLock; EvRead FUsermap; EvRUnlock]).
Proof. reflexivity. Qed.

Lemma UserId_run email c w :
  UserId email (c, w)
  = (Ret (from_option Id "" (scan Email email (users c))), (c, w),
     [EvRLock; EvRead FUsers; EvRUnlock]).
Proof. reflexivity. Qed.

Lemma Tag_run uid c w :
  Tag uid (c, w)
  = (Ret (default "" (map_read (tagmap c) uid)), (c, w),
     [EvRLock; EvRead FTagmap; EvRUnlock]).
Proof. reflexivity. Qed.

Lemma TagId_run tname c w :
  TagId tname (c, w)
  = (Ret (from_option Id "" (scan Name tname (tags c))), (c, w),
     [EvRLock; EvRUnlock; EvRead FTags]).
Proof. reflexivity. Qed.

Lemma SectionName_run p i c w :
  SectionName p i (c, w)
  = (Ret (from_option Name "" (scan Id i (entries c p))), (c, w),
     [EvRLock; EvRead FSections; EvRUnlock]).
Proof.
  unfold SectionName, entries, bind, defer, load, RLock, RUnlock, emit, ret.
  cbn. by destruct (map_read (sections c) p).
Qed.

Lemma SectionId_run p n c w :
  SectionId p n (c, w)
  = (Ret (from_option Id "" (scan Name n (entries c p))), (c, w),
     [EvRLock; EvRead FSections; EvRUnlock]).
Proof.
  unfold SectionId, entries, bind, defer, load, RLock, RUnlock, emit, ret.
  cbn. by destruct (map_read (sections c) p).
Qed.

(** A candidate without the trailing colon: the list of the project has
    been made by then, nothing else changes. *)
Lemma AddSection_rejected p sec c w g :
  sections c = Some g →
  strings_HasSuffix (Name sec) ":" = false →
  AddSection p sec (c, w)
  = (Ret "",
     (with_sections
        (Some (if g !! p is Some _ then g else <[p := mkSection []]> g)) c, w),
     [EvLock; EvRead FSections]
       ++ (if g !! p is Some _ then [] else [EvWrite FSections]) ++ [EvUnlock]).
Proof.
  intros Hg Hsuf.
  unfold AddSection, bind, defer, load, map_assign, Lock, Unlock, emit, ret.
  cbn. rewrite Hg. cbn.
  destruct (g !! p) as [s|]; cbn; rewrite ?Hg; cbn; rewrite Hsuf; cbn.
  - by rewrite <- Hg, with_sections_id.
  - reflexivity.
Qed.

Lemma AddSection_accepted p sec c w g :
  sections c = Some g →
  strings_HasSuffix (Name sec) ":" = true →
  let n := strings_Map keep_alnum (Name sec) in
  AddSection p sec (c, w)
  = (Ret n,
     (with_sections
        (Some (<[p := mkSection (add_entry (set_Name sec n) (entries c p))]> g))
        c, w),
     [EvLock; EvRead FSections]
       ++ (if g !! p is Some _ then [] else [EvWrite FSections])
       ++ [EvRead FSections; EvWrite FSections; EvUnlock]).
Proof.
  intros Hg Hsuf n.
  unfold AddSection, bind, defer, load, map_assign, put_section, store,
    Lock, Unlock, emit, ret, entries, add_entry.
  cbn. rewrite Hg. cbn. fold n.
  destruct (g !! p) as [s|]; cbn; rewrite ?Hg; cbn; rewrite Hsuf; cbn.
  - destruct (rename_first (Id sec) n (seclist s)); cbn; by rewrite Hg.
  - by rewrite insert_insert_eq.
Qed.

End Runs.

(** ** Sections *)

Lemma rename_first_ids id n l l' :
  rename_first id n l = Some l' → Id <$> l' = Id <$> l.
Proof.
  revert l'. induction l as [|b l IH]; intros l'; cbn [rename_first]; [done|].
  destruct (String.eqb (Id b) id).
  - intros [= <-]. reflexivity.
  - destruct (rename_first id n l) as [l0|]; cbn; [|done].
    intros [= <-]. cbn. f_equal. by apply IH.
Qed.

Lemma entries_registered c p i :
  i ∈ Id <$> entries c p →
  ∃ g s, sections c = Some g ∧ g !! p = Some s ∧ entries c p = seclist s.
Proof.
  unfold entries, map_read. destruct (sections c) as [g|]; cbn.
  - destruct (g !! p) as [s|] eqn:E; cbn; [eauto|].
    intros H. by apply elem_of_nil in H.
  - intros H. by apply elem_of_nil in H.
Qed.

Lemma AddSection_rejected_entries {World} (p : string) (sec : Basic)
    (c : acache) (w : World) (g : gmap string asection) :
  sections c = Some g →
  strings_HasSuffix (Name sec) ":" = false →
  returned (AddSection p sec (c, w)) ""
  ∧ ∀ q, entries (final (AddSection p sec (c, w))).1 q = entries c q.
Proof.
  intros Hg Hsuf.
  rewrite (AddSection_rejected _ _ _ _ _ Hg Hsuf). split; [reflexivity|].
  intros q. unfold final. cbn [fst snd].
  destruct (g !! p) as [s|] eqn:E.
  - by rewrite <- Hg, with_sections_id.
  - destruct (decide (p = q)) as [<-|Hne].
    + rewrite entries_with_sections. unfold entries, map_read.
      rewrite Hg. cbn. by rewrite E.
    + by apply entries_with_sections_ne.
Qed.

Lemma AddSection_accepted_lookup {World} (p : string) (sec : Basic)
    (c : acache) (w : World) (g : gmap string asection) :
  sections c = Some g →
  strings_HasSuffix (Name sec) ":" = true →
  returned (AddSection p sec (c, w)) (delete_non_alnum (Name sec))
  ∧ returned (SectionName p (Id sec) (final (AddSection p sec (c, w))))
             (delete_non_alnum (Name sec)).
Proof.
  intros Hg Hsuf.
  rewrite (AddSection_accepted _ _ _ _ _ Hg Hsuf).
  rewrite strings_Map_keep_alnum. split; [reflexivity|].
  unfold final. cbn [fst snd]. rewrite SectionName_run.
  rewrite entries_with_sections. cbn [seclist].
  destruct (add_entry_scan (set_Name sec (delete_non_alnum (Name sec)))
                           (entries c p)) as (b & Hs & Hn & _).
  cbn [set_Name Id Name] in Hs, Hn. unfold returned. cbn [fst].
  by rewrite Hs, <- Hn.
Qed.

(** C4: [AddSection] applies the section filter.  On a cache whose section
    registry has been made by [update], a candidate whose Name does not end
    with a colon is answered with the empty string and no section entry is
    added under any project; a candidate whose Name ends with a colon is
    answered with its Name without the characters that are not ASCII
    letters or digits, and [SectionName] then gives that name for the
    candidate's Id. *)
Theorem AddSection_filter {World} (p : string) (sec : Basic) (c : acache)
    (w : World) :
  is_Some (sections c) →
  (strings_HasSuffix (Name sec) ":" = false →
     returned (AddSection p sec (c, w)) ""
     ∧ ∀ q, entries (final (AddSection p sec (c, w))).1 q = entries c q)
  ∧ (strings_HasSuffix (Name sec) ":" = true →
     returned (AddSection p sec (c, w)) (delete_non_alnum (Name sec))
     ∧ returned (SectionName p (Id sec) (final (AddSection p sec (c, w))))
                (delete_non_alnum (Name sec))).
Proof.
  intros [g Hg]. split; intros Hsuf.
  - by apply (AddSection_rejected_entries p sec c w g).
  - by apply (AddSection_accepted_lookup p sec c w g).
Qed.

(** C5: registering again a section Id that the project already holds, with
    a new colon-terminated Name, renames the entry in place: the project
    keeps the same Ids in the same order (so the same number of entries),
    [AddSection] returns the new normalized name and [SectionName] gives it
    for that Id. *)
Theorem AddSection_rename {World} (p i : string) (sec : Basic) (c : acache)
    (w : World) :
  i ∈ Id <$> entries c p →
  Id sec = i →
  strings_HasSuffix (Name sec) ":" = true →
  returned (AddSection p sec (c, w)) (delete_non_alnum (Name sec))
  ∧ length (entries (final (AddSection p sec (c, w))).1 p)
    = length (entries c p)
  ∧ Id <$> entries (final (AddSection p sec (c, w))).1 p = Id <$> entries c p
  ∧ returned (SectionName p i (final (AddSection p sec (c, w))))
             (delete_non_alnum (Name sec)).
Proof.
  intros Hreg <- Hsuf.
  destruct (entries_registered _ _ _ Hreg) as (g & s & Hg & Hp & Hs).
  destruct (AddSection_accepted_lookup p sec c w g Hg Hsuf) as [Hret Hname].
  split; [done|]. split; [|split; [|done]].
  - rewrite (AddSection_accepted _ _ _ _ _ Hg Hsuf).
    unfold final. cbn [fst snd]. rewrite entries_with_sections. cbn [seclist].
    by apply add_entry_length_registered.
  - rewrite (AddSection_accepted _ _ _ _ _ Hg Hsuf).
    unfold final. cbn [fst snd]. rewrite entries_with_sections. cbn [seclist].
    unfold add_entry. cbn [set_Name Id Name].
    destruct (rename_first (Id sec) (strings_Map keep_alnum (Name sec))
                           (entries c p)) as [l'|] eqn:E.
    + cbn. by apply rename_first_ids in E.
    + by apply rename_first_None in E.
Qed.

(** C8, as the code has it: the section list of a project is made by the
    first [AddSection] call for the project, before the colon filter.  A
    rejected call returns the empty string, adds no section entry and
    leaves every list that exists as it is, but it makes an empty list for
    the project when the project had none. *)
Theorem AddSection_rejected_frame {World} (p : string) (sec : Basic)
    (c : acache) (w : World) (g : gmap string asection) :
  sections c = Some g →
  strings_HasSuffix (Name sec) ":" = false →
  returned (AddSection p sec (c, w)) ""
  ∧ sections (final (AddSection p sec (c, w))).1
    = Some (if g !! p is Some _ then g else <[p := mkSection []]> g)
  ∧ (∀ q s, g !! q = Some s →
       map_read (sections (final (AddSection p sec (c, w))).1) q = Some s)
  ∧ (∀ q, entries (final (AddSection p sec (c, w))).1 q = entries c q).
Proof.
  intros Hg Hsuf.
  destruct (AddSection_rejected_entries p sec c w g Hg Hsuf) as [Hret Hent].
  split; [done|]. split; [|split; [|done]].
  - by rewrite (AddSection_rejected _ _ _ _ _ Hg Hsuf).
  - intros q s Hq. rewrite (AddSection_rejected _ _ _ _ _ Hg Hsuf).
    unfold final, map_read. cbn. destruct (g !! p) as [s'|] eqn:E; [done|].
    rewrite lookup_insert_ne; [done|]. intros ->. congruence.
Qed.

(** C10: a colon-terminated candidate without any ASCII letter or digit in
    its Name is accepted: the section list of the project then holds an
    entry with the candidate's Id and the empty Name, and [AddSection]
    returns the empty string, which is also what it returns for a rejected
    candidate. *)
Theorem AddSection_bare_colon {World} (p : string) (sec : Basic) (c : acache)
    (w : World) :
  is_Some (sections c) →
  strings_HasSuffix (Name sec) ":" = true →
  Forall (λ a, a ∉ letters_and_digits) (String.list_ascii_of_string (Name sec)) →
  returned (AddSection p sec (c, w)) ""
  ∧ (∃ e, e ∈ entries (final (AddSection p sec (c, w))).1 p
          ∧ Id e = Id sec ∧ Name e = "")
  ∧ (∀ sec', strings_HasSuffix (Name sec') ":" = false →
       returned (AddSection p sec' (c, w)) "").
Proof.
  intros [g Hg] Hsuf Hnone.
  assert (strings_Map keep_alnum (Name sec) = "") as Hn.
  { apply strings_Map_no_alnum. eapply Forall_impl; [exact Hnone|].
    intros a Ha. cbn beta in Ha. rewrite keep_alnum_spec.
    by apply bool_decide_eq_false. }
  rewrite (AddSection_accepted _ _ _ _ _ Hg Hsuf). rewrite Hn.
  split; [reflexivity|]. split.
  - unfold final. cbn [fst snd]. rewrite entries_with_sections. cbn [seclist].
    destruct (add_entry_elem (set_Name sec "") (entries c p))
      as (e & He & Hi & Hnm).
    by exists e.
  - intros sec' Hsuf'. by rewrite (AddSection_rejected _ _ _ _ _ Hg Hsuf').
Qed.

(** ** Lock discipline of the lookups *)

(** Eight of the nine lookups hold the read lock from the first event of
    their run to the last and only read in between. *)
Lemma lookups_shared_section {World} (c : acache) (w : World)
    (a b : string) :
  shared_section (events (Workspace (c, w))) = true
  ∧ shared_section (events (Projects (c, w))) = true
  ∧ shared_section (events (ProjectId a (c, w))) = true
  ∧ shared_section (events (User a (c, w))) = true
  ∧ shared_section (events (UserId a (c, w))) = true
  ∧ shared_section (events (Tag a (c, w))) = true
  ∧ shared_section (events (SectionName a b (c, w))) = true
  ∧ shared_section (events (SectionId a b (c, w))) = true.
Proof.
  rewrite SectionName_run, SectionId_run. repeat split; reflexivity.
Qed.

(** C9 at [TagId]: [TagId] releases the read lock right after taking it, and
    reads the tag sequence afterwards, with no lock held. *)
Theorem TagId_reads_unlocked {World} (tname : string) (c : acache)
    (w : World) :
  events (TagId tname (c, w)) = [EvRLock; EvRUnlock; EvRead FTags]
  ∧ guarded Unlocked (events (TagId tname (c, w))) = false
  ∧ shared_section (events (TagId tname (c, w))) = false
  ∧ guarded Unlocked (events (Tag tname (c, w))) = true.
Proof. repeat split; reflexivity. Qed.

(** ** Tag creation *)

Lemma count_named_app x l l' :
  count_named x (l ++ l') = count_named x l + count_named x l'.
Proof. unfold count_named. by rewrite filter_app, length_app. Qed.

Lemma count_named_absent x l :
  x ∉ Name <$> l → count_named x l = 0.
Proof.
  unfold count_named. induction l as [|b l IH]; [done|].
  cbn [fmap list_fmap]. rewrite not_elem_of_cons. intros [Hne Hl].
  rewrite filter_cons. destruct (decide (Name b = x)); [congruence|].
  by apply IH.
Qed.

Lemma count_named_present x l :
  x ∈ Name <$> l → 1 ≤ count_named x l.
Proof.
  unfold count_named. induction l as [|b l IH].
  - intros H. by apply elem_of_nil in H.
  - cbn [fmap list_fmap]. rewrite elem_of_cons, filter_cons.
    destruct (decide (Name b = x)); cbn [length]; [lia|].
    intros [?|?]; [congruence | by apply IH].
Qed.

Section Creation.
Context {World : Type}.
Variable remote_runPost :
  string → string → list (string * string) → World
  → (string * option error) * World.
Variable json_Unmarshal : string → option Basic.

Local Abbreviation createTag := (CreateTag remote_runPost json_Unmarshal).

(** The run of [CreateTag], case by case. *)
Lemma CreateTag_run x c (w : World) :
  let v := [("workspace", defaultWork c); ("name", x)] in
  let called := [EvLock; EvRead FTags; EvRead FDefaultWork;
                 EvPost "POST" "tags" v] in
  createTag x (c, w)
  = match scan Name x (tags c) with
    | Some t => (Ret (Id t), (c, w), [EvLock; EvRead FTags; EvUnlock])
    | None =>
        let r := remote_runPost "POST" "tags" v w in
        match r.1.2, json_Unmarshal r.1.1 with
        | None, Some d =>
            let c' := with_tags (tags c ++ [d]) c in
            match tagmap c with
            | Some m =>
                (Ret (Id d),
                 (with_tagmap (Some (<[Id d := Name d]> m)) c', r.2),
                 called ++ [EvWrite FTags; EvWrite FTagmap; EvUnlock])
            | None =>
                (Panic, (c', r.2),
                 called ++ [EvWrite FTags; EvWrite FTagmap; EvUnlock])
            end
        | _, _ => (Ret "", (c, r.2), called ++ [EvUnlock])
        end
    end.
Proof.
  unfold CreateTag, bind, defer, load, store, runPost, map_assign,
    Lock, Unlock, emit, ret.
  cbn. destruct (scan Name x (tags c)) as [t|]; cbn; [done|].
  destruct (remote_runPost _ _ _ w) as [[resp [e|]] w']; cbn; [done|].
  destruct (json_Unmarshal resp) as [d|]; cbn; [|done].
  destruct (tagmap c) as [m|]; cbn; done.
Qed.

(** C1, as the code has it: when a first [CreateTag(x)] has returned and
    the cache then holds a tag named [x], a second [CreateTag(x)] returns
    the same Id, makes no remote creation call and leaves the cache and
    the remote as they are.  The cache then holds exactly one tag named
    [x] provided that it held at most one before the first call; tags of
    the same name that it already held all stay. *)
Theorem CreateTag_twice (x : string) (c c1 : acache) (w w1 : World)
    (r1 : string) (t1 : list event) :
  createTag x (c, w) = (Ret r1, (c1, w1), t1) →
  x ∈ Name <$> tags c1 →
  returned (createTag x (c1, w1)) r1
  ∧ remote_creations (events (createTag x (c1, w1))) = []
  ∧ final (createTag x (c1, w1)) = (c1, w1)
  ∧ count_named x (tags c1) = Nat.max 1 (count_named x (tags c)).
Proof.
  intros Hrun Hin. rewrite CreateTag_run in Hrun. cbn zeta in Hrun.
  assert (∃ t, scan Name x (tags c1) = Some t ∧ Id t = r1
               ∧ count_named x (tags c1) = Nat.max 1 (count_named x (tags c)))
    as (t & Ht & Hid & Hcount).
  { destruct (scan Name x (tags c)) as [t|] eqn:Hscan.
    - injection Hrun as <- <- <- <-. exists t. split; [done|]. split; [done|].
      apply scan_Some in Hscan as [Ht Hn].
      assert (1 ≤ count_named x (tags c)); [|lia].
      apply count_named_present. rewrite <- Hn.
      by apply list_elem_of_fmap_2.
    - apply scan_None in Hscan as Habs.
      destruct (remote_runPost _ _ _ w) as [[resp [e|]] w']; cbn in Hrun.
      { injection Hrun as <- <- <- <-. done. }
      destruct (json_Unmarshal resp) as [d|]; cbn in Hrun.
      2:{ injection Hrun as <- <- <- <-. done. }
      destruct (tagmap c) as [m|]; [|discriminate].
      injection Hrun as <- <- <- <-. cbn [tags with_tagmap with_tags] in *.
      rewrite fmap_app, elem_of_app in Hin. destruct Hin as [?|Hd]; [done|].
      cbn in Hd. apply list_elem_of_singleton in Hd.
      exists d. rewrite (scan_app_r _ _ _ _ Hscan). unfold scan. cbn [find].
      rewrite <- Hd, String.eqb_refl. split; [done|]. split; [done|].
      rewrite count_named_app, (count_named_absent _ _ Habs).
      unfold count_named. rewrite filter_cons, decide_True by done.
      reflexivity. }
  rewrite CreateTag_run. cbn zeta. rewrite Ht, Hid. done.
Qed.

End Creation.

(** ** Runs in the monad *)

Section Monad.
Context {World : Type}.
Local Abbreviation M := (@M World).

Lemma bind_fst {A B} (m : M A) (k : A → M B) st :
  (bind m k st).1
  = match (m st).1 with
    | (Ret a, st') => (k a st').1
    | (Panic, st') => (Panic, st')
    | (Fatal, st') => (Fatal, st')
    end.
Proof.
  unfold bind. destruct (m st) as [[[a| |] st'] t]; cbn; [|done..].
  by destruct (k a st') as [[r st''] t'].
Qed.

Lemma bind_snd {A B} (m : M A) (k : A → M B) st :
  (bind m k st).2
  = match (m st).1 with
    | (Ret a, st') => (m st).2 ++ (k a st').2
    | _ => (m st).2
    end.
Proof.
  unfold bind. destruct (m st) as [[[a| |] st'] t]; cbn; [|done..].
  by destruct (k a st') as [[r st''] t'].
Qed.














Lemma writer_fst {A} (body : M A) st :
  (bind Lock (λ _, defer Unlock body) st).1 = (body st).1.
Proof.
  unfold bind, defer, Lock, Unlock, emit.
  by destruct (body st) as [[[a| |] st'] t].
Qed.

End Monad.


(** ** The loops of [update] *)

Lemma alter_range {A} (f : A → A) (pre l : list A) :
  foldl (λ l i, alter f i l) (pre ++ l) (seq (length pre) (length l))
  = pre ++ (f <$> l).
Proof.
  revert pre. induction l as [|a l IH]; intros pre; [done|].
  cbn [length seq foldl fmap list_fmap].
  replace (alter f (length pre) (pre ++ a :: l)) with ((pre ++ [f a]) ++ l).
  - replace (S (length pre)) with (length (pre ++ [f a])).
    + rewrite IH. by rewrite <- app_assoc.
    + rewrite length_app. cbn. lia.
  - rewrite <- app_assoc. cbn [app].
    rewrite alter_app_r_alt by lia. by rewrite Nat.sub_diag.
Qed.

Lemma alter_all {A} (f : A → A) (l : list A) :
  foldl (λ l i, alter f i l) l (seq 0 (length l)) = f <$> l.
Proof. apply (alter_range f [] l). Qed.

Section Update.
Context {World : Type}.
Variable remote_getVarious :
  string → string → World → (list Basic * option error) * World.
Variable domain : string.


Lemma resolve_loop ws c (w : World) :
  (for_range ws (λ w0,
     if String.eqb (Name w0) domain
     then store FDefaultWork (with_defaultWork (Id w0))
     else ret tt) (c, w)).1
  = (Ret tt, (with_defaultWork (resolve domain ws (defaultWork c)) c, w)).
Proof.
  revert c. induction ws as [|a ws IH]; intros c.
  - by destruct c.
  - cbn [for_range]. rewrite bind_fst. unfold resolve. cbn [foldl].
    destruct (String.eqb (Name a) domain); cbn [store ret fst snd].
    + rewrite IH. by destruct c.
    + apply IH.
Qed.

Lemma tagmap_loop ts c (w : World) m :
  tagmap c = Some m →
  (for_range ts (λ t,
     map_assign FTagmap tagmap with_tagmap (Id t) (Name t)) (c, w)).1
  = (Ret tt, (with_tagmap (Some (index_by Name ts m)) c, w)).
Proof.
  revert c m. induction ts as [|a ts IH]; intros c m Hm.
  - cbn. rewrite <- Hm. by destruct c.
  - cbn [for_range]. rewrite bind_fst. unfold map_assign at 1.
    cbn [fst snd]. rewrite Hm. cbn [map_store fst snd].
    rewrite (IH _ (<[Id a := Name a]> m)); [by destruct c | done].
Qed.

Lemma usermap_loop us c (w : World) m :
  usermap c = Some m →
  (for_range us (λ u,
     map_assign FUsermap usermap with_usermap (Id u) (Email u)) (c, w)).1
  = (Ret tt, (with_usermap (Some (index_by Email us m)) c, w)).
Proof.
  revert c m. induction us as [|a us IH]; intros c m Hm.
  - cbn. rewrite <- Hm. by destruct c.
  - cbn [for_range]. rewrite bind_fst. unfold map_assign at 1.
    cbn [fst snd]. rewrite Hm. cbn [map_store fst snd].
    rewrite (IH _ (<[Id a := Email a]> m)); [by destruct c | done].
Qed.

Lemma local_part_loop (ixs : list nat) c (w : World) :
  (for_range ixs (λ i,
     store FUsers (λ c, with_users (alter local_part i (users c)) c))
     (c, w)).1
  = (Ret tt,
     (with_users (foldl (λ l i, alter local_part i l) (users c) ixs) c, w)).
Proof.
  revert c. induction ixs as [|i ixs IH]; intros c.
  - by destruct c.
  - cbn [for_range]. rewrite bind_fst. cbn [store fst snd].
    rewrite IH. by destruct c.
Qed.

(** The outcome of [updateTags] and the cache and remote it leaves. *)
Lemma updateTags_run c (w : World) :
  (updateTags remote_getVarious (c, w)).1
  = let r := remote_getVarious "tags" "name" w in
    match r.1.2 with
    | Some e => (Ret (Some e), (with_tags r.1.1 c, r.2))
    | None =>
        (Ret None,
         (with_tagmap (Some (index_by Name r.1.1 ∅)) (with_tags r.1.1 c),
          r.2))
    end.
Proof.
  unfold updateTags. rewrite bind_fst. unfold getVarious at 1.
  cbn [fst snd]. destruct (remote_getVarious "tags" "name" w) as [[ts e] w'].
  cbn [fst snd]. rewrite bind_fst. cbn [store fst snd].
  destruct e as [e|]; [done|].
  rewrite bind_fst. cbn [store fst snd]. rewrite bind_fst. cbn [load fst snd].
  rewrite bind_fst. erewrite tagmap_loop by reflexivity. done.
Qed.

(** The outcome of [update] and the cache and remote it leaves, step by
    step. *)
Lemma update_run c (w : World) :
  (update remote_getVarious domain (c, w)).1
  = let r1 := remote_getVarious "workspaces" "name" w in
    let c1 := with_workspaces r1.1.1 c in
    match r1.1.2 with
    | Some e => (Ret (Some (Wrap e "workspaces")), (c1, r1.2))
    | None =>
    let dw := resolve domain r1.1.1 (defaultWork c) in
    let c2 := with_defaultWork dw c1 in
    if String.eqb dw "" then (Fatal, (c2, r1.2)) else
    let r3 :=
      remote_getVarious ("workspaces/" +:+ dw +:+ "/projects") "name" r1.2 in
    let c3 := with_projects r3.1.1 c2 in
    match r3.1.2 with
    | Some e => (Ret (Some (Wrap e "projects")), (c3, r3.2))
    | None =>
    let r4 := remote_getVarious "tags" "name" r3.2 in
    let c4 := with_tags r4.1.1 c3 in
    match r4.1.2 with
    | Some e => (Ret (Some (Wrap e "updateTags")), (c4, r4.2))
    | None =>
    let c5 := with_tagmap (Some (index_by Name r4.1.1 ∅)) c4 in
    let r6 := remote_getVarious "users" "email" r4.2 in
    match r6.1.2 with
    | Some e => (Ret (Some (Wrap e "users")), (with_users r6.1.1 c5, r6.2))
    | None =>
    let us := local_part <$> r6.1.1 in
    (Ret None,
     (with_sections (Some ∅)
        (with_usermap (Some (index_by Email us ∅)) (with_users us c5)),
      r6.2))
    end end end end.
Proof.
  unfold update. rewrite writer_fst.
  rewrite bind_fst. unfold getVarious at 1. cbn [fst snd].
  destruct (remote_getVarious "workspaces" "name" w) as [[ws e1] w1].
  cbn [fst snd]. rewrite bind_fst. cbn [store fst snd].
  destruct e1 as [e1|]; [done|].
  rewrite bind_fst. cbn [load fst snd workspaces with_workspaces].
  rewrite bind_fst, resolve_loop.
  cbn [defaultWork with_workspaces].
  rewrite bind_fst. cbn [load fst snd defaultWork with_defaultWork].
  destruct (String.eqb (resolve domain ws (defaultWork c)) "") eqn:Edw;
    [done|].
  rewrite bind_fst. cbn [load fst snd defaultWork with_defaultWork].
  rewrite bind_fst. unfold getVarious at 1. cbn [fst snd].
  destruct (remote_getVarious _ "name" w1) as [[ps e3] w3].
  cbn [fst snd]. rewrite bind_fst. cbn [store fst snd].
  destruct e3 as [e3|]; [done|].
  rewrite bind_fst, updateTags_run. cbn zeta.
  destruct (remote_getVarious "tags" "name" w3) as [[ts e4] w4].
  cbn [fst snd]. destruct e4 as [e4|]; [done|].
  rewrite bind_fst. unfold getVarious at 1. cbn [fst snd].
  destruct (remote_getVarious "users" "email" w4) as [[us e6] w6].
  cbn [fst snd]. rewrite bind_fst. cbn [store fst snd].
  destruct e6 as [e6|]; [done|].
  rewrite bind_fst. cbn [load fst snd users with_users].
  rewrite bind_fst, local_part_loop. cbn [users with_users].
  rewrite alter_all.
  rewrite bind_fst. cbn [store fst snd].
  rewrite bind_fst. cbn [load fst snd users with_users with_usermap].
  rewrite bind_fst. erewrite usermap_loop by reflexivity.
  rewrite bind_fst. cbn [store fst snd]. by destruct c.
Qed.


End Update.


(** ** Indices *)

Lemma index_by_absent val l g id :
  id ∉ Id <$> l → index_by val l g !! id = g !! id.
Proof.
  revert g. induction l as [|b l IH]; intros g; [done|].
  cbn [fmap list_fmap]. rewrite not_elem_of_cons. intros [Hne Hl].
  unfold index_by. cbn [foldl]. fold (index_by val l (<[Id b := val b]> g)).
  rewrite IH by done. by rewrite lookup_insert_ne.
Qed.

Lemma index_by_lookup val l g b :
  NoDup (Id <$> l) → b ∈ l → index_by val l g !! Id b = Some (val b).
Proof.
  revert g. induction l as [|a l IH]; intros g Hnd Hin.
  - by apply elem_of_nil in Hin.
  - cbn [fmap list_fmap] in Hnd. apply NoDup_cons in Hnd as [Ha Hnd].
    unfold index_by. cbn [foldl]. fold (index_by val l (<[Id a := val a]> g)).
    apply elem_of_cons in Hin as [->|Hin].
    + rewrite index_by_absent by done. apply lookup_insert_eq.
    + by apply IH.
Qed.

(** ** Resolving the default workspace *)

Lemma resolve_no_match domain ws d :
  domain ∉ Name <$> ws → resolve domain ws d = d.
Proof.
  revert d. induction ws as [|a ws IH]; intros d; [done|].
  cbn [fmap list_fmap]. rewrite not_elem_of_cons. intros [Hne Hws].
  change (resolve domain (a :: ws) d)
    with (resolve domain ws (if String.eqb (Name a) domain then Id a else d)).
  destruct (String.eqb (Name a) domain) eqn:E; [|by apply IH].
  apply String.eqb_eq in E. congruence.
Qed.

Lemma resolve_match domain ws d :
  domain ∈ Name <$> ws →
  ∃ wk, wk ∈ ws ∧ Name wk = domain ∧ resolve domain ws d = Id wk.
Proof.
  revert d. induction ws as [|a ws IH]; intros d Hin.
  - by apply elem_of_nil in Hin.
  - change (resolve domain (a :: ws) d)
      with (resolve domain ws (if String.eqb (Name a) domain then Id a else d)).
    destruct (decide (domain ∈ Name <$> ws)) as [Hws|Hws].
    + destruct (IH (if String.eqb (Name a) domain then Id a else d) Hws)
        as (wk & Hk & Hn & Hr).
      exists wk. split; [by apply elem_of_cons; right | done].
    + rewrite resolve_no_match by done.
      cbn [fmap list_fmap] in Hin. apply elem_of_cons in Hin as [Ha|?]; [|done].
      exists a. rewrite <- Ha, String.eqb_refl.
      split; [by apply elem_of_cons; left | done].
Qed.

(** ** [update] *)

Section Refresh.
Context {World : Type}.
Variable remote_getVarious :
  string → string → World → (list Basic * option error) * World.
Variable domain : string.

Local Abbreviation refresh := (update remote_getVarious domain).

(** On a cache that has no default workspace yet, [update] exits in
    [log.Fatalf] when no fetched workspace is named [domain]. *)
Lemma map_read_Some {V} (g : gmap string V) k : map_read (Some g) k = g !! k.
Proof. reflexivity. Qed.

Lemma update_unresolved_fatal c (w : World) :
  defaultWork c = "" →
  (remote_getVarious "workspaces" "name" w).1.2 = None →
  domain ∉ Name <$> (remote_getVarious "workspaces" "name" w).1.1 →
  (refresh (c, w)).1.1 = Fatal.
Proof.
  intros Hd Hok Hno. rewrite update_run. cbn zeta.
  rewrite Hok, (resolve_no_match _ _ _ Hno), Hd. reflexivity.
Qed.

(** After a successful [update] the default workspace is not empty. *)
Lemma update_ok_defaultWork c (w : World) :
  returned (refresh (c, w)) None →
  defaultWork (final (refresh (c, w))).1 ≠ "".
Proof.
  unfold returned, final. rewrite update_run. cbn zeta.
  destruct (remote_getVarious "workspaces" "name" w) as [[ws [e|]] w1];
    cbn [fst snd]; [done|].
  destruct (String.eqb (resolve domain ws (defaultWork c)) "") eqn:E; [done|].
  apply String.eqb_neq in E.
  destruct (remote_getVarious _ "name" w1) as [[ps [e|]] w3];
    cbn [fst snd]; [done|].
  destruct (remote_getVarious "tags" "name" w3) as [[ts [e|]] w4];
    cbn [fst snd]; [done|].
  destruct (remote_getVarious "users" "email" w4) as [[us [e|]] w6];
    cbn [fst snd]; [done|].
  intros _. exact E.
Qed.

(** C3, as the code has it: when the fetch of the projects fails during
    [update], [update] returns the error wrapped with the label
    [projects], [Workspace] gives the Id of the workspace named [domain]
    that step 2 resolved, and the project sequence holds what the failed
    fetch returned, not the projects of before the call; the tags, the
    users, both indices and the sections are those of before the call. *)
Theorem update_projects_failure (c : acache) (w w1 w2 : World)
    (ws ps : list Basic) (e : error) :
  remote_getVarious "workspaces" "name" w = ((ws, None), w1) →
  domain ∈ Name <$> ws →
  resolve domain ws (defaultWork c) ≠ "" →
  remote_getVarious
    ("workspaces/" +:+ resolve domain ws (defaultWork c) +:+ "/projects")
    "name" w1 = ((ps, Some e), w2) →
  returned (refresh (c, w)) (Some (Wrap e "projects"))
  ∧ (∃ wk, wk ∈ ws ∧ Name wk = domain
           ∧ returned (Workspace (final (refresh (c, w)))) (Id wk))
  ∧ projects (final (refresh (c, w))).1 = ps
  ∧ (∀ name, returned (ProjectId name (final (refresh (c, w))))
                      (from_option Id "" (scan Name name ps)))
  ∧ tags (final (refresh (c, w))).1 = tags c
  ∧ users (final (refresh (c, w))).1 = users c
  ∧ tagmap (final (refresh (c, w))).1 = tagmap c
  ∧ usermap (final (refresh (c, w))).1 = usermap c
  ∧ sections (final (refresh (c, w))).1 = sections c.
Proof.
  intros Hws Hin Hdw Hps.
  destruct (resolve_match domain ws (defaultWork c) Hin) as (wk & Hk & Hn & Hr).
  apply String.eqb_neq in Hdw.
  unfold returned, final. rewrite update_run. cbn zeta.
  rewrite Hws. cbn [fst snd]. rewrite Hdw, Hps. cbn [fst snd].
  split; [done|]. split; [|done].
  exists wk. rewrite Workspace_run. cbn. by rewrite Hr.
Qed.

(** C6, as the code has it: after a successful [update] whose tags have
    pairwise distinct Ids, [Tag(TagId(name))] is [name] for the Name of
    every cached tag, and [TagId(Tag(id))] is [id] for the Id of every
    cached tag that is the first of the sequence with its Name (every
    tag, when the Names are pairwise distinct); [Tag] and [TagId] give the
    empty string for an Id and a Name that no cached tag has. *)
Theorem tag_lookup_round_trip (c : acache) (w : World) :
  returned (refresh (c, w)) None →
  NoDup (Id <$> tags (final (refresh (c, w))).1) →
  (∀ t, t ∈ tags (final (refresh (c, w))).1 →
     (∃ i, returned (TagId (Name t) (final (refresh (c, w)))) i
           ∧ returned (Tag i (final (refresh (c, w)))) (Name t))
     ∧ (scan Name (Name t) (tags (final (refresh (c, w))).1) = Some t →
        ∃ n, returned (Tag (Id t) (final (refresh (c, w)))) n
             ∧ returned (TagId n (final (refresh (c, w)))) (Id t)))
  ∧ (NoDup (Name <$> tags (final (refresh (c, w))).1) →
     ∀ t, t ∈ tags (final (refresh (c, w))).1 →
       ∃ n, returned (Tag (Id t) (final (refresh (c, w)))) n
            ∧ returned (TagId n (final (refresh (c, w)))) (Id t))
  ∧ (∀ i, i ∉ Id <$> tags (final (refresh (c, w))).1 →
       returned (Tag i (final (refresh (c, w)))) "")
  ∧ (∀ n, n ∉ Name <$> tags (final (refresh (c, w))).1 →
       returned (TagId n (final (refresh (c, w)))) "").
Proof.
  unfold returned, final. rewrite update_run. cbn zeta.
  destruct (remote_getVarious "workspaces" "name" w) as [[ws [e|]] w1];
    cbn [fst snd]; [done|].
  destruct (String.eqb (resolve domain ws (defaultWork c)) ""); [done|].
  destruct (remote_getVarious _ "name" w1) as [[ps [e|]] w3];
    cbn [fst snd]; [done|].
  destruct (remote_getVarious "tags" "name" w3) as [[ts [e|]] w4];
    cbn [fst snd]; [done|].
  destruct (remote_getVarious "users" "email" w4) as [[us [e|]] w6];
    cbn [fst snd]; [done|].
  intros _.
  set (c' := with_sections _ _).
  assert (tags c' = ts) as Hts by reflexivity.
  assert (tagmap c' = Some (index_by Name ts ∅)) as Htm by reflexivity.
  clearbody c'. rewrite Hts. intros Hnd.
  assert (∀ i, (Tag i (c', w6)).1.1
               = Ret (default "" (index_by Name ts ∅ !! i))) as HTag.
  { intros i. by rewrite Tag_run, Htm. }
  assert (∀ n, (TagId n (c', w6)).1.1
               = Ret (from_option Id "" (scan Name n ts))) as HTagId.
  { intros n. by rewrite TagId_run, Hts. }
  assert (∀ t, t ∈ ts →
            default "" (index_by Name ts ∅ !! Id t) = Name t) as Hname.
  { intros t Ht. by rewrite (index_by_lookup Name ts ∅ t Hnd Ht). }
  assert (∀ t, t ∈ ts → scan Name (Name t) ts = Some t →
            ∃ n, (Tag (Id t) (c', w6)).1.1 = Ret n
                 ∧ (TagId n (c', w6)).1.1 = Ret (Id t)) as Hfirst.
  { intros t Ht Hs. exists (Name t). rewrite HTag, HTagId, Hs.
    by rewrite (Hname t Ht). }
  split; [|split; [|split]].
  - intros t Ht. split; [|by apply Hfirst].
    destruct (scan Name (Name t) ts) as [t0|] eqn:Hs.
    + exists (Id t0). rewrite HTag, HTagId, Hs.
      apply scan_Some in Hs as [Ht0 Hn0]. split; [done|].
      by rewrite (Hname t0 Ht0), Hn0.
    + apply scan_None in Hs. exfalso. apply Hs.
      by apply list_elem_of_fmap_2.
  - intros Hnn t Ht. apply (Hfirst t Ht). by apply scan_NoDup.
  - intros i Hi. rewrite HTag.
    by rewrite (index_by_absent Name ts ∅ i Hi).
  - intros n Hn. rewrite HTagId.
    apply (scan_None Name) in Hn. by rewrite Hn.
Qed.
End Refresh.

(** ** Index consistency *)


Section Invariant.
Context {World : Type}.
Variable remote_getVarious :
  string → string → World → (list Basic * option error) * World.
Variable remote_runPost :
  string → string → list (string * string) → World
  → (string * option error) * World.
Variable json_Unmarshal : string → option Basic.
Variable domain : string.











End Invariant.

(** * The cache on concrete inputs *)

Example email_local_part :
  users (final (update script_getVarious "acme" (zero_cache, plain_tags))).1
  = [mkBasic "u1" "Jane" "jane.doe"]
  ∧ returned (User "u1"
       (final (update script_getVarious "acme" (zero_cache, plain_tags))))
      "jane.doe"
  ∧ returned (UserId "jane.doe"
       (final (update script_getVarious "acme" (zero_cache, plain_tags))))
      "u1".
Proof. repeat split; vm_compute; reflexivity. Qed.

(** With one workspace named [acme], [update] writes the default workspace
    once. *)
Example update_sets_defaultWork_once :
  filter (λ e, e = EvWrite FDefaultWork)
         (events (update script_getVarious "acme" (zero_cache, plain_tags)))
  = [EvWrite FDefaultWork]
  ∧ returned (Workspace
       (final (update script_getVarious "acme" (zero_cache, plain_tags))))
      "w1".
Proof. split; vm_compute; reflexivity. Qed.

(** Before the first [update] the maps are nil: [AddSection] panics. *)
Example AddSection_zero_cache_panics :
  (AddSection "p1" (mkBasic "1" "Done:" "") (zero_cache, silent)).1.1 = Panic.
Proof. reflexivity. Qed.

(** C1 as stated fails on the cache that [update] leaves when the remote
    has two tags named [x]: a first and a second [CreateTag] of [x] both
    return Id [1] without a remote call and leave the cache as it is, with
    its two tags named [x]. *)
Lemma CreateTag_twice_keeps_twins :
  tags twin_state.1 = [tag_x1; tag_x2]
  ∧ returned (CreateTag script_runPost script_Unmarshal "x" twin_state) "1"
  ∧ final (CreateTag script_runPost script_Unmarshal "x" twin_state)
    = twin_state
  ∧ remote_creations
      (events (CreateTag script_runPost script_Unmarshal "x" twin_state)) = []
  ∧ count_named "x" (tags twin_state.1) = 2
  ∧ count_named "x" (tags twin_state.1) ≠ 1.
Proof.
  repeat split; try (vm_compute; reflexivity).
  vm_compute. discriminate.
Qed.

(** A first [CreateTag] that creates tag [t9], then a second one. *)
Lemma CreateTag_twice_witness :
  CreateTag script_runPost script_Unmarshal "x" (acme_cache, creates_x)
  = (Ret "t9",
     (with_tagmap (Some {["t9" := "x"]})
        (with_tags [mkBasic "t9" "x" ""] acme_cache), silent),
     [EvLock; EvRead FTags; EvRead FDefaultWork;
      EvPost "POST" "tags" [("workspace", "w1"); ("name", "x")];
      EvWrite FTags; EvWrite FTagmap; EvUnlock])
  ∧ returned
      (CreateTag script_runPost script_Unmarshal "x"
         (with_tagmap (Some {["t9" := "x"]})
            (with_tags [mkBasic "t9" "x" ""] acme_cache), silent))
      "t9"
  ∧ count_named "x"
      (tags (with_tagmap (Some {["t9" := "x"]})
               (with_tags [mkBasic "t9" "x" ""] acme_cache))) = 1.
Proof.
  split; [vm_compute; reflexivity|].
  destruct (CreateTag_twice script_runPost script_Unmarshal "x" acme_cache
              (with_tagmap (Some {["t9" := "x"]})
                 (with_tags [mkBasic "t9" "x" ""] acme_cache))
              creates_x silent "t9"
              [EvLock; EvRead FTags; EvRead FDefaultWork;
               EvPost "POST" "tags" [("workspace", "w1"); ("name", "x")];
               EvWrite FTags; EvWrite FTagmap; EvUnlock])
    as (Hret & _ & _ & Hcount).
  - vm_compute; reflexivity.
  - apply elem_of_cons. left. reflexivity.
  - split; [exact Hret | exact Hcount].
Defined.

(** C2 at a second [update]: the cache holds the default workspace [w1] of
    an earlier [update] and no fetched workspace is named [acme].  [update]
    does not exit: it keeps [w1], fetches the projects of [w1] and returns
    success.  From the zero cache the same remote makes it exit. *)
Theorem update_keeps_stale_workspace :
  ("acme" ∉ Name <$> workspaces
     (final (update script_getVarious "acme" (acme_cache, other_workspace))).1)
  ∧ returned (update script_getVarious "acme" (acme_cache, other_workspace))
             None
  ∧ defaultWork
      (final (update script_getVarious "acme" (acme_cache, other_workspace))).1
    = "w1"
  ∧ (EvGet "workspaces/w1/projects" "name"
     ∈ events (update script_getVarious "acme" (acme_cache, other_workspace)))
  ∧ (EvWrite FDefaultWork
     ∉ events (update script_getVarious "acme" (acme_cache, other_workspace)))
  ∧ (update script_getVarious "acme" (zero_cache, other_workspace)).1.1
    = Fatal.
Proof.
  repeat split; try (vm_compute; reflexivity).
  - vm_compute. intros H. apply elem_of_cons in H as [H|H]; [discriminate|].
    by apply elem_of_nil in H.
  - refine (bool_decide_unpack _ _). vm_compute. exact I.
  - refine (bool_decide_unpack _ _). vm_compute. exact I.
Qed.

(** C3 as stated fails: when the projects fetch fails, the project sequence
    is overwritten with what the fetch returned, and a project that was
    cached before the call is not found afterwards. *)
Lemma update_projects_failure_drops_projects :
  returned (update script_getVarious "acme" (acme_cache, projects_down))
           (Some (Wrap (RemoteError "timeout") "projects"))
  ∧ returned (Workspace
       (final (update script_getVarious "acme" (acme_cache, projects_down))))
      "w9"
  ∧ projects acme_cache = [mkBasic "p1" "Proj" ""]
  ∧ returned (ProjectId "Proj" (acme_cache, projects_down)) "p1"
  ∧ projects
      (final (update script_getVarious "acme" (acme_cache, projects_down))).1
    = []
  ∧ projects
      (final (update script_getVarious "acme" (acme_cache, projects_down))).1
    ≠ projects acme_cache
  ∧ returned (ProjectId "Proj"
       (final (update script_getVarious "acme" (acme_cache, projects_down))))
      "".
Proof. repeat split; try (vm_compute; reflexivity). vm_compute. discriminate. Qed.

(** The failing projects fetch of [projects_down], after workspace [w9] has
    been resolved. *)
Lemma update_projects_failure_witness :
  returned (update script_getVarious "acme" (acme_cache, projects_down))
           (Some (Wrap (RemoteError "timeout") "projects"))
  ∧ projects
      (final (update script_getVarious "acme" (acme_cache, projects_down))).1
    = []
  ∧ tags
      (final (update script_getVarious "acme" (acme_cache, projects_down))).1
    = tags acme_cache.
Proof.
  destruct (update_projects_failure script_getVarious "acme" acme_cache
              projects_down
              (mkScript [([], Some (RemoteError "timeout"))] [])
              silent [mkBasic "w9" "acme" ""] [] (RemoteError "timeout"))
    as (Hret & _ & Hps & _ & Hts & _).
  - reflexivity.
  - apply elem_of_cons. left. reflexivity.
  - vm_compute. discriminate.
  - vm_compute. reflexivity.
  - split; [exact Hret | split; [exact Hps | exact Hts]].
Defined.

(** The section [In Progress:] is registered as [InProgress]. *)
Lemma AddSection_filter_witness :
  is_Some (sections acme_cache)
  ∧ returned (AddSection "p1" (mkBasic "1" "In Progress:" "")
                (acme_cache, silent)) "InProgress"
  ∧ returned
      (SectionName "p1" "1"
         (final (AddSection "p1" (mkBasic "1" "In Progress:" "")
                   (acme_cache, silent)))) "InProgress".
Proof.
  split; [by eexists|].
  apply (AddSection_filter "p1" (mkBasic "1" "In Progress:" "") acme_cache
           silent (ex_intro _ ∅ eq_refl)).
  reflexivity.
Defined.

(** Section [1] of project [p1] is renamed to [AlmostDone]; the project keeps
    its two entries. *)
Lemma AddSection_rename_witness :
  ("1" ∈ Id <$> entries board_cache "p1")
  ∧ returned (AddSection "p1" (mkBasic "1" "Almost Done:" "")
                (board_cache, silent)) "AlmostDone"
  ∧ length (entries
       (final (AddSection "p1" (mkBasic "1" "Almost Done:" "")
                 (board_cache, silent))).1 "p1") = 2
  ∧ returned
      (SectionName "p1" "1"
         (final (AddSection "p1" (mkBasic "1" "Almost Done:" "")
                   (board_cache, silent)))) "AlmostDone".
Proof.
  assert ("1" ∈ Id <$> entries board_cache "p1") as Hreg.
  { refine (bool_decide_unpack _ _). vm_compute. exact I. }
  split; [exact Hreg|].
  destruct (AddSection_rename "p1" "1" (mkBasic "1" "Almost Done:" "")
              board_cache silent Hreg eq_refl eq_refl)
    as (Hret & Hlen & _ & Hname).
  split; [exact Hret | split; [exact Hlen | exact Hname]].
Defined.

(** C6 as stated fails when two fetched tags have the same Name: the Name
    of tag [2] leads back to tag [1]. *)
Lemma tag_round_trip_fails_for_twins :
  returned (update script_getVarious "acme" (zero_cache, twin_tags)) None
  ∧ (tag_x2 ∈ tags
       (final (update script_getVarious "acme" (zero_cache, twin_tags))).1)
  ∧ returned (Tag "2"
       (final (update script_getVarious "acme" (zero_cache, twin_tags)))) "x"
  ∧ returned (TagId "x"
       (final (update script_getVarious "acme" (zero_cache, twin_tags)))) "1"
  ∧ ¬ returned (TagId "x"
       (final (update script_getVarious "acme" (zero_cache, twin_tags)))) "2".
Proof.
  split; [reflexivity|]. split; [|split; [reflexivity|]].
  - refine (bool_decide_unpack _ _). vm_compute. exact I.
  - split; [reflexivity|]. vm_compute. discriminate.
Qed.

(** After an [update] with the tags [t1] and [t2], no tag has Id [t9]. *)
Lemma tag_lookup_round_trip_witness :
  returned (update script_getVarious "acme" (zero_cache, plain_tags)) None
  ∧ NoDup (Id <$> tags
       (final (update script_getVarious "acme" (zero_cache, plain_tags))).1)
  ∧ returned (Tag "t9"
       (final (update script_getVarious "acme" (zero_cache, plain_tags)))) "".
Proof.
  assert (NoDup (Id <$> tags
            (final (update script_getVarious "acme" (zero_cache, plain_tags))).1))
    as Hnd.
  { refine (bool_decide_unpack _ _). vm_compute. exact I. }
  split; [reflexivity|]. split; [exact Hnd|].
  destruct (tag_lookup_round_trip script_getVarious "acme" zero_cache plain_tags
              eq_refl Hnd) as (_ & _ & Habs & _).
  apply Habs. refine (bool_decide_unpack _ _). vm_compute. exact I.
Defined.



(** C8 as stated fails: a rejected call for a project without a list makes
    the (empty) list of the project. *)
Lemma AddSection_rejected_makes_list :
  strings_HasSuffix "Done" ":" = false
  ∧ returned (AddSection "p1" (mkBasic "1" "Done" "") (acme_cache, silent)) ""
  ∧ map_read (sections acme_cache) "p1" = None
  ∧ map_read
      (sections
         (final (AddSection "p1" (mkBasic "1" "Done" "") (acme_cache, silent))).1)
      "p1" = Some (mkSection [])
  ∧ sections
      (final (AddSection "p1" (mkBasic "1" "Done" "") (acme_cache, silent))).1
    ≠ sections acme_cache.
Proof.
  repeat split; try (vm_compute; reflexivity).
  intros H. apply (f_equal (λ m, map_read m "p1")) in H.
  vm_compute in H. discriminate.
Qed.

(** A rejected candidate for project [p2] leaves the list of [p1] as it is. *)
Lemma AddSection_rejected_frame_witness :
  sections board_cache
  = Some {["p1" := mkSection [mkBasic "1" "InProgress" "";
                              mkBasic "2" "Done" ""]]}
  ∧ returned (AddSection "p2" (mkBasic "3" "Done" "") (board_cache, silent)) ""
  ∧ entries
      (final (AddSection "p2" (mkBasic "3" "Done" "") (board_cache, silent))).1
      "p1"
    = entries board_cache "p1".
Proof.
  split; [reflexivity|].
  destruct (AddSection_rejected_frame "p2" (mkBasic "3" "Done" "") board_cache
              silent _ eq_refl eq_refl) as (Hret & _ & _ & Hent).
  split; [exact Hret | exact (Hent "p1")].
Defined.

(** The candidate named [:] is stored with the empty Name. *)
Lemma AddSection_bare_colon_witness :
  is_Some (sections acme_cache)
  ∧ strings_HasSuffix ":" ":" = true
  ∧ returned (AddSection "p1" (mkBasic "7" ":" "") (acme_cache, silent)) ""
  ∧ ∃ e, e ∈ entries
             (final (AddSection "p1" (mkBasic "7" ":" "") (acme_cache, silent))).1
             "p1"
         ∧ Id e = "7" ∧ Name e = "".
Proof.
  split; [by eexists|]. split; [reflexivity|].
  destruct (AddSection_bare_colon "p1" (mkBasic "7" ":" "") acme_cache silent
              (ex_intro _ ∅ eq_refl) eq_refl) as (Hret & Hent & _).
  - refine (bool_decide_unpack _ _). vm_compute. exact I.
  - split; [exact Hret | exact Hent].
Defined.

(** * Further properties *)

(** ** The string functions the cache uses *)

Lemma strings_Split_nonempty s sep : strings_Split s sep ≠ [].
Proof.
  destruct s as [|a s]; cbn [strings_Split]; [done|].
  destruct (Ascii.eqb a sep); [done|].
  by destruct (strings_Split s sep).
Qed.

(** Joining the pieces of [strings.Split] with the separator gives the
    string back. *)
(** Joining the pieces of [strings.Split] with the separator gives the
    string back. *)
Lemma concat_cons sep h ls :
  ls ≠ [] → String.concat sep (h :: ls) = h +:+ sep +:+ String.concat sep ls.
Proof. by destruct ls. Qed.

Lemma strings_Split_concat s sep :
  String.concat (String sep "") (strings_Split s sep) = s.
Proof.
  induction s as [|a s IH]; [done|]. cbn [strings_Split].
  pose proof (strings_Split_nonempty s sep) as Hne.
  destruct (Ascii.eqb a sep) eqn:E.
  - apply Ascii.eqb_eq in E. subst a.
    rewrite concat_cons by done. by rewrite IH.
  - destruct (strings_Split s sep) as [|h t]; [done|].
    destruct t as [|h' t].
    + cbn in *. by rewrite IH.
    + rewrite concat_cons by done. rewrite concat_cons in IH by done.
      rewrite <- IH. reflexivity.
Qed.

Lemma strings_Split_hd s sep :
  (sep ∉ chars (hd "" (strings_Split s sep)))
  ∧ ∃ rest, s = hd "" (strings_Split s sep) +:+ rest
            ∧ (rest = "" ∨ ∃ r, rest = String sep r).
Proof.
  induction s as [|a s (IHn & rest & IHs & IHr)]; cbn [strings_Split].
  - split; [apply not_elem_of_nil|]. exists "". by split; [|left].
  - pose proof (strings_Split_nonempty s sep) as Hne.
    destruct (Ascii.eqb a sep) eqn:E.
    + apply Ascii.eqb_eq in E. subst a. cbn [hd]. split; [apply not_elem_of_nil|].
      exists (String sep s). split; [done|]. right. by exists s.
    + apply Ascii.eqb_neq in E.
      destruct (strings_Split s sep) as [|h t]; [done|]. cbn [hd] in *.
      split.
      * unfold chars. cbn [String.list_ascii_of_string].
        rewrite not_elem_of_cons. split; [congruence | done].
      * exists rest. split; [|done]. change (String a s = String a (h +:+ rest)). by f_equal.
Qed.

(** X1: the normalization of a user's Email in [update] keeps the part
    before the first [@]: the result has no [@], the fetched Email is the
    result followed by nothing or by a rest that starts with [@], and the
    Id and the Name are kept. *)
Theorem local_part_spec (u : Basic) :
  Id (local_part u) = Id u
  ∧ Name (local_part u) = Name u
  ∧ ("@"%char ∉ chars (Email (local_part u)))
  ∧ ∃ rest, Email u = Email (local_part u) +:+ rest
            ∧ (rest = "" ∨ ∃ r, rest = String "@" r).
Proof.
  split; [done|]. split; [done|]. apply strings_Split_hd.
Qed.

Lemma local_part_no_at (u : Basic) :
  "@"%char ∉ chars (Email u) → local_part u = u.
Proof.
  destruct u as [i n e]. unfold local_part, set_Email. cbn [Id Name Email].
  intros Hno. f_equal.
  induction e as [|a e IH]; [done|]. cbn [strings_Split].
  unfold chars in Hno. cbn [String.list_ascii_of_string] in Hno.
  apply not_elem_of_cons in Hno as [Ha He].
  destruct (Ascii.eqb a "@") eqn:E; [apply Ascii.eqb_eq in E; congruence|].
  specialize (IH He). pose proof (strings_Split_nonempty e "@") as Hne.
  destruct (strings_Split e "@") as [|h t]; [done|]. cbn [hd] in *. by rewrite IH.
Qed.

(** X2: the filter of [AddSection], [strings.HasSuffix(sec.Name, ":")],
    holds exactly for the Names that are some string followed by one
    colon. *)
Theorem strings_HasSuffix_colon (s : string) :
  strings_HasSuffix s ":" = true ↔ ∃ pre, s = pre +:+ ":".
Proof.
  unfold strings_HasSuffix. cbn [String.length].
  induction s as [|a s IH].
  - split; [done|]. intros [[|b pre] H]; discriminate.
  - cbn [String.length]. rewrite Nat.sub_succ, Nat.sub_0_r.
    destruct s as [|b s].
    + cbn. split.
      * destruct (Ascii.eqb a ":") eqn:E; [|done]. intros _.
        apply Ascii.eqb_eq in E. subst. by exists "".
      * intros [[|c [|d pre]] H]; cbn in H; try discriminate.
        injection H as ->. reflexivity.
    + cbn [String.length] in *. rewrite Nat.sub_succ, Nat.sub_0_r in IH.
      cbn [String.substring Nat.leb andb] in *. rewrite IH. split.
      * intros [pre ->]. by exists (String a pre).
      * intros [[|c pre] H]; [discriminate|]. injection H as -> H.
        by exists pre.
Qed.

(** ** More on [AddSection] *)

Lemma rename_first_elem id n l l' b :
  rename_first id n l = Some l' → b ∈ l' →
  (Id b = id ∧ Name b = n) ∨ b ∈ l.
Proof.
  revert l'. induction l as [|a l IH]; intros l'; cbn [rename_first]; [done|].
  destruct (String.eqb (Id a) id) eqn:E.
  - apply String.eqb_eq in E. intros [= <-] Hb.
    apply elem_of_cons in Hb as [->|Hb]; [by left|].
    right. by apply elem_of_cons; right.
  - destruct (rename_first id n l) as [l0|]; cbn; [|done].
    intros [= <-] Hb. apply elem_of_cons in Hb as [->|Hb].
    + right. by apply elem_of_cons; left.
    + destruct (IH l0 eq_refl Hb) as [?|?]; [by left|].
      right. by apply elem_of_cons; right.
Qed.

Lemma rename_first_scan_other id n l l' i :
  rename_first id n l = Some l' → i ≠ id →
  Name <$> scan Id i l' = Name <$> scan Id i l.
Proof.
  revert l'. induction l as [|a l IH]; intros l'; cbn [rename_first]; [done|].
  destruct (String.eqb (Id a) id) eqn:E.
  - apply String.eqb_eq in E. intros [= <-] Hne. unfold scan. cbn [find].
    cbn [set_Name Id]. destruct (String.eqb (Id a) i) eqn:E'; [|done].
    apply String.eqb_eq in E'. congruence.
  - destruct (rename_first id n l) as [l0|]; cbn; [|done].
    intros [= <-] Hne. unfold scan in *. cbn [find].
    destruct (String.eqb (Id a) i); [done|]. by apply IH.
Qed.

Lemma scan_app_found key k l l' b :
  scan key k l = Some b → scan key k (l ++ l') = Some b.
Proof.
  unfold scan. induction l as [|a l IH]; [done|].
  cbn [app find]. destruct (String.eqb (key a) k); [done | apply IH].
Qed.

Lemma add_entry_elem_inv sec l b :
  b ∈ add_entry sec l → (Id b = Id sec ∧ Name b = Name sec) ∨ b ∈ l.
Proof.
  unfold add_entry.
  destruct (rename_first (Id sec) (Name sec) l) as [l'|] eqn:E; cbn.
  - by apply rename_first_elem.
  - rewrite elem_of_app, list_elem_of_singleton. intros [?| ->]; [by right|].
    by left.
Qed.

Lemma add_entry_scan_other sec l i :
  i ≠ Id sec →
  Name <$> scan Id i (add_entry sec l) = Name <$> scan Id i l.
Proof.
  intros Hne. unfold add_entry.
  destruct (rename_first (Id sec) (Name sec) l) as [l'|] eqn:E; cbn [from_option id].
  - by apply (rename_first_scan_other _ _ _ _ _ E).
  -     destruct (scan Id i l) as [b|] eqn:Hs.
    + by rewrite (scan_app_found _ _ _ _ _ Hs).
    + rewrite (scan_app_r _ _ _ _ Hs). unfold scan. cbn [find].
      destruct (String.eqb (Id sec) i) eqn:E'; [|done].
      apply String.eqb_eq in E'. congruence.
Qed.

Lemma add_entry_new sec l :
  Id sec ∉ Id <$> l → add_entry sec l = l ++ [sec].
Proof.
  intros H. unfold add_entry.
  apply (rename_first_None (Id sec) (Name sec)) in H. by rewrite H.
Qed.

Lemma add_entry_NoDup sec l :
  NoDup (Id <$> l) → NoDup (Id <$> add_entry sec l).
Proof.
  intros Hnd. unfold add_entry.
  destruct (rename_first (Id sec) (Name sec) l) as [l'|] eqn:E; cbn [from_option id].
  - by rewrite (rename_first_ids _ _ _ _ E).
  -     apply rename_first_None in E. rewrite fmap_app. apply NoDup_app.
    split; [done|]. split; [|apply NoDup_singleton].
    intros i Hi Hs. cbn in Hs. apply list_elem_of_singleton in Hs. by subst.
Qed.

Lemma delete_non_alnum_alnum_only s : alnum_only (delete_non_alnum s).
Proof.
  unfold alnum_only, delete_non_alnum.
  rewrite String.list_ascii_of_string_of_list_ascii.
  apply Forall_forall. intros a Ha. by apply list_elem_of_filter in Ha as [? _].
Qed.

Lemma alnum_only_invariant s : alnum_only s → delete_non_alnum s = s.
Proof.
  unfold alnum_only, delete_non_alnum. intros H.
  rewrite <- (String.string_of_list_ascii_of_string s) at 2. f_equal.
  induction (String.list_ascii_of_string s) as [|a l IH]; [done|].
  apply Forall_cons in H as [Ha Hl]. rewrite filter_cons, decide_True by done.
  by rewrite IH.
Qed.

Section Registry.
Context {World : Type}.
Implicit Types (c : acache) (w : World) (g : gmap string asection).

(** The outcome of [AddSection] on a cache whose section registry has been
    made: the other fields and the remote are kept, and the list of the
    project is the only list that can change. *)
Lemma AddSection_made p sec c w g :
  sections c = Some g →
  let n := delete_non_alnum (Name sec) in
  let r := AddSection p sec (c, w) in
  let c' := (final r).1 in
  (final r).2 = w
  ∧ workspaces c' = workspaces c ∧ defaultWork c' = defaultWork c
  ∧ projects c' = projects c ∧ tags c' = tags c ∧ users c' = users c
  ∧ tagmap c' = tagmap c ∧ usermap c' = usermap c
  ∧ (∀ q, q ≠ p → entries c' q = entries c q)
  ∧ (if strings_HasSuffix (Name sec) ":"
     then returned r n ∧ entries c' p = add_entry (set_Name sec n) (entries c p)
     else returned r "" ∧ entries c' p = entries c p).
Proof.
  intros Hg n r c'. subst r c'.
  destruct (strings_HasSuffix (Name sec) ":") eqn:Hsuf.
  - rewrite (AddSection_accepted _ _ _ _ _ Hg Hsuf).
    rewrite strings_Map_keep_alnum. fold n. unfold final. cbn [fst snd].
    repeat split; try done.
    + intros q Hq. by apply entries_with_sections_ne.
    + by rewrite entries_with_sections.
  - destruct (AddSection_rejected_entries p sec c w g Hg Hsuf) as [Hret Hent].
    rewrite (AddSection_rejected _ _ _ _ _ Hg Hsuf) in *.
    unfold final in *. cbn [fst snd] in *. repeat split; try done.
    all: intros q _; apply Hent.
Qed.

Lemma AddSection_nil_run (p : string) (sec : Basic) c w :
  sections c = None →
  AddSection p sec (c, w)
  = (Panic, (c, w), [EvLock; EvRead FSections; EvWrite FSections; EvUnlock]).
Proof.
  intros Hg.
  unfold AddSection, bind, defer, load, map_assign, Lock, Unlock, emit.
  cbn. rewrite Hg. cbn. by rewrite Hg.
Qed.

(** X3: on a cache whose section registry is nil (no [update] has reached
    its last step), [AddSection] panics for every project and every
    candidate, also for one that the colon filter would reject; the cache
    and the remote are as before, no remote call has been made and the
    deferred [Unlock] has run. *)
Theorem AddSection_nil_sections_panics (p : string) (sec : Basic) c w :
  sections c = None →
  (AddSection p sec (c, w)).1.1 = Panic
  ∧ final (AddSection p sec (c, w)) = (c, w)
  ∧ List.filter is_remote (events (AddSection p sec (c, w))) = []
  ∧ last (events (AddSection p sec (c, w))) = Some EvUnlock.
Proof. intros Hg. by rewrite (AddSection_nil_run _ _ _ _ Hg). Qed.

(** X4: [AddSection] for one project leaves the section lists of all other
    projects, every other field of the cache and the remote as they are. *)
Theorem AddSection_frame (p : string) (sec : Basic) c w :
  is_Some (sections c) →
  (final (AddSection p sec (c, w))).2 = w
  ∧ tags (final (AddSection p sec (c, w))).1 = tags c
  ∧ users (final (AddSection p sec (c, w))).1 = users c
  ∧ projects (final (AddSection p sec (c, w))).1 = projects c
  ∧ defaultWork (final (AddSection p sec (c, w))).1 = defaultWork c
  ∧ tagmap (final (AddSection p sec (c, w))).1 = tagmap c
  ∧ usermap (final (AddSection p sec (c, w))).1 = usermap c
  ∧ ∀ q i, q ≠ p →
      entries (final (AddSection p sec (c, w))).1 q = entries c q
      ∧ (SectionName q i (final (AddSection p sec (c, w)))).1.1
        = (SectionName q i (c, w)).1.1.
Proof.
  intros [g Hg].
  destruct (AddSection_made p sec c w g Hg)
    as (Hw & _ & Hd & Hp & Ht & Hu & Htm & Hum & Hq & _).
  repeat split; try done.
  - by apply Hq.
  - destruct (final (AddSection p sec (c, w))) as [c' w'] eqn:E.
    rewrite !SectionName_run. cbn [fst snd] in *. by rewrite (Hq q).
Qed.

(** X5: a colon-terminated candidate whose Id the project does not hold yet
    is appended, with its normalized Name, at the end of the project's
    list; whatever the Id, [SectionName] of every other Id of the project
    gives what it gave before. *)
Theorem AddSection_appends (p : string) (sec : Basic) c w :
  is_Some (sections c) →
  strings_HasSuffix (Name sec) ":" = true →
  (Id sec ∉ Id <$> entries c p →
     entries (final (AddSection p sec (c, w))).1 p
     = entries c p ++ [set_Name sec (delete_non_alnum (Name sec))])
  ∧ ∀ i, i ≠ Id sec →
      (SectionName p i (final (AddSection p sec (c, w)))).1.1
      = (SectionName p i (c, w)).1.1.
Proof.
  intros [g Hg] Hsuf.
  destruct (AddSection_made p sec c w g Hg) as (_ & _ & _ & _ & _ & _ & _ & _ & _ & H).
  rewrite Hsuf in H. destruct H as [_ Hent]. split.
  - intros Hnew. rewrite Hent. by apply add_entry_new.
  - intros i Hi.
    destruct (final (AddSection p sec (c, w))) as [c' w'] eqn:E.
    rewrite !SectionName_run. cbn [fst snd] in *. rewrite Hent.
    pose proof (add_entry_scan_other
                  (set_Name sec (delete_non_alnum (Name sec)))
                  (entries c p) i Hi) as Hs.
    destruct (scan Id i (add_entry _ _)), (scan Id i (entries c p));
      cbn in *; congruence.
Qed.

(** X6: after a colon-terminated candidate has been registered, [SectionId]
    of its normalized Name gives its Id, provided that no section of the
    project with another Id carries that Name. *)
Theorem AddSection_SectionId (p : string) (sec : Basic) c w :
  is_Some (sections c) →
  strings_HasSuffix (Name sec) ":" = true →
  (∀ b, b ∈ entries c p → Name b = delete_non_alnum (Name sec) →
        Id b = Id sec) →
  returned (SectionId p (delete_non_alnum (Name sec))
              (final (AddSection p sec (c, w))))
           (Id sec).
Proof.
  intros [g Hg] Hsuf Hother.
  destruct (AddSection_made p sec c w g Hg) as (_ & _ & _ & _ & _ & _ & _ & _ & _ & H).
  rewrite Hsuf in H. destruct H as [_ Hent].
  destruct (final (AddSection p sec (c, w))) as [c' w'] eqn:E.
  rewrite SectionId_run. cbn [fst snd] in *. rewrite Hent.
  set (n := delete_non_alnum (Name sec)) in *. unfold returned. cbn [fst].
  destruct (scan Name n (add_entry (set_Name sec n) (entries c p)))
    as [b|] eqn:Hs.
  - apply scan_Some in Hs as [Hb Hn]. cbn. f_equal.
    apply add_entry_elem_inv in Hb as [[Hi _]|Hb]; [done|]. by apply Hother.
  - apply scan_None in Hs. exfalso. apply Hs.
    destruct (add_entry_elem (set_Name sec n) (entries c p)) as (e & He & _ & Hn).
    cbn [set_Name Name] in Hn. apply list_elem_of_fmap.
    exists e. by split.
Qed.

(** X7: [AddSection] keeps the section Ids of every project pairwise
    distinct: a call that returns on a cache where no project holds two
    sections with the same Id leaves such a cache. *)
Theorem AddSection_ids_unique (p : string) (sec : Basic) c w (r : string) :
  section_ids_unique c →
  returned (AddSection p sec (c, w)) r →
  section_ids_unique (final (AddSection p sec (c, w))).1.
Proof.
  intros Hinv Hret. destruct (sections c) as [g|] eqn:Hg.
  - destruct (AddSection_made p sec c w g Hg)
      as (_ & _ & _ & _ & _ & _ & _ & _ & Hq & H).
    intros q. destruct (decide (q = p)) as [->|Hne]; [|by rewrite Hq].
    destruct (strings_HasSuffix (Name sec) ":"); destruct H as [_ ->]; [|done].
    by apply add_entry_NoDup.
  - rewrite (AddSection_nil_run _ _ _ _ Hg) in Hret. done.
Qed.

(** X8: what [AddSection] returns and every Name it stores consist of ASCII
    letters and digits only: a call that returns on a cache whose section
    Names are such leaves such a cache, and returns such a string (the
    empty one included). *)
Theorem AddSection_names_alnum (p : string) (sec : Basic) c w (r : string) :
  section_names_alnum c →
  returned (AddSection p sec (c, w)) r →
  alnum_only r ∧ section_names_alnum (final (AddSection p sec (c, w))).1.
Proof.
  intros Hinv Hret. destruct (sections c) as [g|] eqn:Hg.
  - destruct (AddSection_made p sec c w g Hg)
      as (_ & _ & _ & _ & _ & _ & _ & _ & Hq & H).
    unfold returned in *.
    destruct (strings_HasSuffix (Name sec) ":"); destruct H as [Hr Hent].
    + rewrite Hret in Hr. injection Hr as ->.
      split; [apply delete_non_alnum_alnum_only|].
      intros q b. destruct (decide (q = p)) as [->|Hne].
      * rewrite Hent. intros Hb.
        apply add_entry_elem_inv in Hb as [[_ Hn]|Hb]; [|by apply (Hinv p)].
        cbn [set_Name Name] in Hn. rewrite Hn.
        apply delete_non_alnum_alnum_only.
      * rewrite Hq by done. apply Hinv.
    + rewrite Hret in Hr. injection Hr as ->. split; [constructor|].
      intros q b. destruct (decide (q = p)) as [->|Hne].
      * rewrite Hent. apply Hinv.
      * rewrite Hq by done. apply Hinv.
  - rewrite (AddSection_nil_run _ _ _ _ Hg) in Hret. done.
Qed.

End Registry.

(** ** More on tag creation *)

Section MoreCreation.
Context {World : Type}.
Variable remote_runPost :
  string → string → list (string * string) → World
  → (string * option error) * World.
Variable json_Unmarshal : string → option Basic.

Local Abbreviation createTag := (CreateTag remote_runPost json_Unmarshal).

(** X9: when no cached tag has the name and the creation call fails or its
    reply does not decode, [CreateTag] returns the empty string and leaves
    the cache as it is; it has made one creation call, for the default
    workspace and the name, and the remote is as that call left it. *)
Theorem CreateTag_failure (x : string) (c : acache) (w : World) :
  x ∉ Name <$> tags c →
  (remote_runPost "POST" "tags"
     [("workspace", defaultWork c); ("name", x)] w).1.2 ≠ None
  ∨ json_Unmarshal
      (remote_runPost "POST" "tags"
         [("workspace", defaultWork c); ("name", x)] w).1.1 = None →
  returned (createTag x (c, w)) ""
  ∧ final (createTag x (c, w))
    = (c, (remote_runPost "POST" "tags"
             [("workspace", defaultWork c); ("name", x)] w).2)
  ∧ remote_creations (events (createTag x (c, w)))
    = [EvPost "POST" "tags" [("workspace", defaultWork c); ("name", x)]].
Proof.
  intros Habs Hfail. apply (scan_None Name) in Habs.
  rewrite CreateTag_run. cbn zeta. rewrite Habs.
  destruct (remote_runPost _ _ _ w) as [[resp [e|]] w']; cbn [fst snd] in *.
  - done.
  - destruct Hfail as [?|Hd]; [done|]. by rewrite Hd.
Qed.

(** X10: when no cached tag has the name, the tag index has been made and
    the remote creates entity [d], [CreateTag] returns the Id of [d] and
    appends [d] to the tags; [Tag] then gives the Name of [d] for that Id
    and what it gave before for every other Id, and [TagId] of the
    requested name gives the Id of [d] if the remote kept the name, and the
    empty string if it did not. *)
Theorem CreateTag_created (x : string) (c : acache) (w : World)
    (m : gmap string string) (d : Basic) :
  x ∉ Name <$> tags c →
  tagmap c = Some m →
  (remote_runPost "POST" "tags"
     [("workspace", defaultWork c); ("name", x)] w).1.2 = None →
  json_Unmarshal
    (remote_runPost "POST" "tags"
       [("workspace", defaultWork c); ("name", x)] w).1.1 = Some d →
  returned (createTag x (c, w)) (Id d)
  ∧ tags (final (createTag x (c, w))).1 = tags c ++ [d]
  ∧ returned (Tag (Id d) (final (createTag x (c, w)))) (Name d)
  ∧ (∀ i, i ≠ Id d →
       (Tag i (final (createTag x (c, w)))).1.1 = (Tag i (c, w)).1.1)
  ∧ returned (TagId x (final (createTag x (c, w))))
             (if String.eqb (Name d) x then Id d else "").
Proof.
  intros Habs Hm Hok Hd. apply (scan_None Name) in Habs.
  rewrite CreateTag_run. cbn zeta. rewrite Habs.
  destruct (remote_runPost _ _ _ w) as [[resp e] w']; cbn [fst snd] in *.
  subst e. rewrite Hd, Hm. unfold final, returned. cbn [fst snd].
  split; [done|]. split; [done|].
  rewrite TagId_run. setoid_rewrite Tag_run.
  cbn [fst snd tags tagmap with_tagmap with_tags]. rewrite !map_read_Some.
  split; [by rewrite lookup_insert_eq|]. split.
  - intros i Hi. rewrite Hm, map_read_Some. by rewrite lookup_insert_ne.
  - rewrite (scan_app_r _ _ _ _ Habs). unfold scan. cbn [find].
    by destruct (String.eqb (Name d) x).
Qed.

(** X11: on a cache whose tag index is nil (no [updateTags] has succeeded),
    a [CreateTag] that is answered with a new entity panics at the store
    into the index, after the remote has created the tag and the tag has
    been appended; the deferred [Unlock] has run. *)
Theorem CreateTag_nil_tagmap_panics (x : string) (c : acache) (w : World)
    (d : Basic) :
  x ∉ Name <$> tags c →
  tagmap c = None →
  (remote_runPost "POST" "tags"
     [("workspace", defaultWork c); ("name", x)] w).1.2 = None →
  json_Unmarshal
    (remote_runPost "POST" "tags"
       [("workspace", defaultWork c); ("name", x)] w).1.1 = Some d →
  (createTag x (c, w)).1.1 = Panic
  ∧ tags (final (createTag x (c, w))).1 = tags c ++ [d]
  ∧ remote_creations (events (createTag x (c, w)))
    = [EvPost "POST" "tags" [("workspace", defaultWork c); ("name", x)]]
  ∧ last (events (createTag x (c, w))) = Some EvUnlock.
Proof.
  intros Habs Hm Hok Hd. apply (scan_None Name) in Habs.
  rewrite CreateTag_run. cbn zeta. rewrite Habs.
  destruct (remote_runPost _ _ _ w) as [[resp e] w']; cbn [fst snd] in *.
  subst e. rewrite Hd, Hm. done.
Qed.

(** X12: a cached tag with the requested name is found without any remote
    call, whatever the remote would answer; [CreateTag] returns the Id of
    the first such tag and leaves the cache and the remote as they are. *)
Theorem CreateTag_cached (x : string) (c : acache) (w : World) (t : Basic) :
  scan Name x (tags c) = Some t →
  createTag x (c, w) = (Ret (Id t), (c, w), [EvLock; EvRead FTags; EvUnlock])
  ∧ t ∈ tags c ∧ Name t = x
  ∧ returned (TagId x (c, w)) (Id t).
Proof.
  intros Hs. rewrite CreateTag_run. cbn zeta. rewrite Hs.
  split; [done|]. destruct (scan_Some _ _ _ _ Hs) as [Hin Hn].
  split; [done|]. split; [done|]. rewrite TagId_run. unfold returned.
  cbn [fst]. by rewrite Hs.
Qed.

End MoreCreation.

(** ** More on the lookups *)

Section Lookups.
Context {World : Type}.
Implicit Types (c : acache) (w : World).

(** X13: a lookup that misses returns the empty string: a Name or Email
    that no entity of the scanned sequence has, an Id without an entry in
    the index (or a nil index), a project without a section list (or a nil
    registry). *)
Theorem lookup_miss (key p : string) c w :
  (key ∉ Name <$> projects c → returned (ProjectId key (c, w)) "")
  ∧ (key ∉ Email <$> users c → returned (UserId key (c, w)) "")
  ∧ (key ∉ Name <$> tags c → returned (TagId key (c, w)) "")
  ∧ (map_read (usermap c) key = None → returned (User key (c, w)) "")
  ∧ (map_read (tagmap c) key = None → returned (Tag key (c, w)) "")
  ∧ (key ∉ Id <$> entries c p → returned (SectionName p key (c, w)) "")
  ∧ (key ∉ Name <$> entries c p → returned (SectionId p key (c, w)) "").
Proof.
  rewrite ProjectId_run, UserId_run, TagId_run, User_run, Tag_run,
    SectionName_run, SectionId_run.
  unfold returned. cbn [fst].
  repeat split; intros H; try (by rewrite H);
    apply scan_None in H; by rewrite H.
Qed.

(** X14: a scanning lookup that returns a non-empty string returns the Id
    (for [SectionName], the Name) of an entity that the scanned sequence
    holds under the requested key. *)
Theorem lookup_hit (key p r : string) c w :
  r ≠ "" →
  (returned (ProjectId key (c, w)) r →
     ∃ b, b ∈ projects c ∧ Name b = key ∧ Id b = r)
  ∧ (returned (UserId key (c, w)) r →
     ∃ b, b ∈ users c ∧ Email b = key ∧ Id b = r)
  ∧ (returned (TagId key (c, w)) r →
     ∃ b, b ∈ tags c ∧ Name b = key ∧ Id b = r)
  ∧ (returned (SectionName p key (c, w)) r →
     ∃ b, b ∈ entries c p ∧ Id b = key ∧ Name b = r)
  ∧ (returned (SectionId p key (c, w)) r →
     ∃ b, b ∈ entries c p ∧ Name b = key ∧ Id b = r).
Proof.
  intros Hr.
  rewrite ProjectId_run, UserId_run, TagId_run, SectionName_run, SectionId_run.
  unfold returned. cbn [fst].
  repeat split.
  all: match goal with
       | |- Ret (from_option _ _ ?s) = _ → _ =>
           destruct s as [b|] eqn:Hs; cbn; intros [= Hb]; [|congruence];
           apply scan_Some in Hs as [Hin Hk]; by exists b
       end.
Qed.

End Lookups.

(** ** Remote calls *)

Section Remote.
Context {World : Type}.
Local Abbreviation M := (@M World).

Lemma free_of_ret P {A} (a : A) : free_of P (ret a : M A).
Proof. by intros st. Qed.

Lemma free_of_bind P {A B} (m : M A) (k : A → M B) :
  free_of P m → (∀ a, free_of P (k a)) → free_of P (bind m k).
Proof.
  intros Hm Hk st. rewrite bind_snd. specialize (Hm st).
  destruct (m st) as [[[a| |] st'] t]; cbn [fst snd] in *; [|done..].
  rewrite forallb_app, Hm. apply Hk.
Qed.

Lemma free_of_defer P {A} (d : M unit) (body : M A) :
  free_of P d → free_of P body → free_of P (defer d body).
Proof.
  intros Hd Hb st. unfold defer. specialize (Hb st).
  destruct (body st) as [[[a| |] st'] t]; cbn [fst snd] in *; [| |done].
  all: specialize (Hd st'); destruct (d st') as [[? ?] t']; cbn [snd] in *.
  all: by rewrite forallb_app, Hb, Hd.
Qed.

Lemma free_of_emit P e : P e = false → free_of P (emit e : M unit).
Proof. intros H st. cbn. by rewrite H. Qed.

Lemma free_of_load P {A} f (proj : acache → A) :
  P (EvRead f) = false → free_of P (load f proj : M A).
Proof. intros H st. cbn. by rewrite H. Qed.

Lemma free_of_store P f upd :
  P (EvWrite f) = false → free_of P (store f upd : M unit).
Proof. intros H st. cbn. by rewrite H. Qed.

Lemma free_of_fatal P {A} : free_of P (fatal : M A).
Proof. by intros st. Qed.

Lemma free_of_map_assign P {V} f (proj : acache → gomap V) upd k v :
  P (EvWrite f) = false → free_of P (map_assign f proj upd k v : M unit).
Proof.
  intros H st. unfold map_assign.
  destruct (map_store (proj st.1) k v); cbn; by rewrite H.
Qed.

Lemma free_of_getVarious P remote path sortby :
  P (EvGet path sortby) = false →
  free_of P (getVarious remote path sortby : M _).
Proof.
  intros H st. unfold getVarious.
  destruct (remote path sortby st.2). cbn. by rewrite H.
Qed.

Lemma free_of_runPost P remote method path v :
  P (EvPost method path v) = false →
  free_of P (runPost remote method path v : M _).
Proof.
  intros H st. unfold runPost.
  destruct (remote method path v st.2). cbn. by rewrite H.
Qed.

Lemma free_of_for_range P {A} (l : list A) (body : A → M unit) :
  (∀ x, free_of P (body x)) → free_of P (for_range l body).
Proof.
  intros Hb. induction l as [|x l IH]; cbn [for_range].
  - apply free_of_ret.
  - by apply free_of_bind.
Qed.

End Remote.

Ltac free_of_steps :=
  repeat first
    [ apply free_of_ret | apply free_of_fatal
    | apply free_of_load; reflexivity | apply free_of_store; reflexivity
    | apply free_of_emit; reflexivity
    | apply free_of_map_assign; reflexivity
    | apply free_of_getVarious; reflexivity
    | apply free_of_runPost; reflexivity
    | apply free_of_for_range; intros ?
    | apply free_of_defer
    | apply free_of_bind; [|intros ?]
    | match goal with
      | |- free_of _ (match ?x with _ => _ end) => destruct x
      | |- free_of _ (if ?x then _ else _) => destruct x
      end ].

Section RemoteUse.
Context {World : Type}.
Variable remote_getVarious :
  string → string → World → (list Basic * option error) * World.
Variable remote_runPost :
  string → string → list (string * string) → World
  → (string * option error) * World.
Variable json_Unmarshal : string → option Basic.
Variable domain : string.

(** X15: [CreateTag] is the only operation that makes a creation call:
    no run of [update] or [updateTags] contains one, [AddSection] and the
    nine lookups make no remote call at all, and [CreateTag] makes no
    fetch. *)
Theorem remote_calls_by_operation (x a b : string) (sec : Basic) :
  free_of is_post (update remote_getVarious domain)
  ∧ free_of is_post (updateTags remote_getVarious)
  ∧ free_of is_get (CreateTag remote_runPost json_Unmarshal x)
  ∧ free_of is_remote (AddSection (World := World) a sec)
  ∧ free_of is_remote (Workspace (World := World))
  ∧ free_of is_remote (Projects (World := World))
  ∧ free_of is_remote (ProjectId (World := World) a)
  ∧ free_of is_remote (User (World := World) a)
  ∧ free_of is_remote (UserId (World := World) a)
  ∧ free_of is_remote (Tag (World := World) a)
  ∧ free_of is_remote (TagId (World := World) a)
  ∧ free_of is_remote (SectionName (World := World) a b)
  ∧ free_of is_remote (SectionId (World := World) a b).
Proof.
  split; [unfold update, Lock, Unlock; free_of_steps|].
  split; [unfold updateTags; free_of_steps|].
  split; [unfold CreateTag, Lock, Unlock; free_of_steps|].
  split; [unfold AddSection, put_section, Lock, Unlock; free_of_steps|].
  repeat split; intros [c w];
    rewrite ?SectionName_run, ?SectionId_run; reflexivity.
Qed.

End RemoteUse.

(** ** More on [update] *)

Lemma resolve_app domain ws ws' d :
  resolve domain (ws ++ ws') d = resolve domain ws' (resolve domain ws d).
Proof. unfold resolve. apply foldl_app. Qed.

Lemma resolve_last_match domain pre wk post d :
  Name wk = domain → domain ∉ Name <$> post →
  resolve domain (pre ++ wk :: post) d = Id wk.
Proof.
  intros Hn Hpost. rewrite resolve_app.
  change (resolve domain (wk :: post) (resolve domain pre d))
    with (resolve domain post
            (if String.eqb (Name wk) domain then Id wk
             else resolve domain pre d)).
  rewrite resolve_no_match by done. by rewrite Hn, String.eqb_refl.
Qed.

Lemma resolve_match_any domain ws d d' :
  domain ∈ Name <$> ws → resolve domain ws d = resolve domain ws d'.
Proof.
  intros Hin. apply list_elem_of_fmap in Hin as (wk & Hn & Hin).
  induction ws as [|a ws IH] using rev_ind; [by apply elem_of_nil in Hin|].
  rewrite !resolve_app.
  change (resolve domain [a] ?x)
    with (if String.eqb (Name a) domain then Id a else x).
  destruct (String.eqb (Name a) domain) eqn:E; [done|].
  apply String.eqb_neq in E. apply elem_of_app in Hin as [Hin|Hin].
  - by apply IH.
  - apply list_elem_of_singleton in Hin. congruence.
Qed.

Section MoreUpdate.
Context {World : Type}.
Variable remote_getVarious :
  string → string → World → (list Basic * option error) * World.
Variable domain : string.

Local Abbreviation refresh := (update remote_getVarious domain).

(** What a successful [update] leaves. *)
Lemma update_ok_inv c (w : World) :
  returned (refresh (c, w)) None →
  ∃ ws ps ts us w',
    (remote_getVarious "workspaces" "name" w).1 = (ws, None)
    ∧ resolve domain ws (defaultWork c) ≠ ""
    ∧ final (refresh (c, w))
      = (mkCache ws (resolve domain ws (defaultWork c)) ps ts
                 (local_part <$> us)
                 (Some (index_by Name ts ∅))
                 (Some (index_by Email (local_part <$> us) ∅))
                 (Some ∅), w').
Proof.
  unfold returned, final. rewrite update_run. cbn zeta.
  destruct (remote_getVarious "workspaces" "name" w) as [[ws [e|]] w1];
    cbn [fst snd]; [done|].
  destruct (String.eqb (resolve domain ws (defaultWork c)) "") eqn:E; [done|].
  apply String.eqb_neq in E.
  destruct (remote_getVarious _ "name" w1) as [[ps [e|]] w3];
    cbn [fst snd]; [done|].
  destruct (remote_getVarious "tags" "name" w3) as [[ts [e|]] w4];
    cbn [fst snd]; [done|].
  destruct (remote_getVarious "users" "email" w4) as [[us [e|]] w6];
    cbn [fst snd]; [done|].
  intros _. by exists ws, ps, ts, us, w6.
Qed.

(** X16: a successful [update] discards every registered section: no
    project has a section entry afterwards, [SectionName] and [SectionId]
    give the empty string for every project and key, and [AddSection]
    returns for every project and candidate. *)
Theorem update_resets_sections c (w : World) :
  returned (refresh (c, w)) None →
  (∀ p, entries (final (refresh (c, w))).1 p = [])
  ∧ (∀ p k, returned (SectionName p k (final (refresh (c, w)))) ""
            ∧ returned (SectionId p k (final (refresh (c, w)))) "")
  ∧ (∀ p sec, ∃ r, returned (AddSection p sec (final (refresh (c, w)))) r)
  ∧ section_ids_unique (final (refresh (c, w))).1
  ∧ section_names_alnum (final (refresh (c, w))).1.
Proof.
  intros Hok. destruct (update_ok_inv c w Hok) as (ws & ps & ts & us & w' & _ & _ & ->).
  unfold final. cbn [fst snd].
  assert (∀ p, entries (mkCache ws (resolve domain ws (defaultWork c)) ps ts
                 (local_part <$> us) (Some (index_by Name ts ∅))
                 (Some (index_by Email (local_part <$> us) ∅)) (Some ∅)) p = [])
    as Hent.
  { intros p. unfold entries, map_read. cbn. by rewrite lookup_empty. }
  split; [done|]. split; [|split; [|split]].
  - intros p k. rewrite SectionName_run, SectionId_run, Hent. done.
  - intros p sec. destruct (strings_HasSuffix (Name sec) ":") eqn:Hsuf.
    + erewrite AddSection_accepted by done. by eexists.
    + erewrite AddSection_rejected by done. by eexists.
  - intros p. rewrite Hent. constructor.
  - intros p b. rewrite Hent. intros Hb. by apply elem_of_nil in Hb.
Qed.

(** X17: [update] never panics, on any cache and against any remote, and an
    error that it returns is the error of a fetch wrapped with one of the
    four stage labels; after such an error the user index and the section
    registry are those of before the call. *)
Theorem update_outcomes c (w : World) :
  (refresh (c, w)).1.1 ≠ Panic
  ∧ ∀ e, returned (refresh (c, w)) (Some e) →
      (∃ e0 l, e = Wrap e0 l
               ∧ l ∈ ["workspaces"; "projects"; "updateTags"; "users"])
      ∧ usermap (final (refresh (c, w))).1 = usermap c
      ∧ sections (final (refresh (c, w))).1 = sections c.
Proof.
  unfold returned, final. rewrite update_run. cbn zeta.
  destruct (remote_getVarious "workspaces" "name" w) as [[ws [e1|]] w1];
    cbn [fst snd].
  { split; [done|]. intros e [= <-]. split; [|done].
    exists e1, "workspaces". split; [done|]. set_solver. }
  destruct (String.eqb (resolve domain ws (defaultWork c)) ""); [done|].
  destruct (remote_getVarious _ "name" w1) as [[ps [e3|]] w3]; cbn [fst snd].
  { split; [done|]. intros e [= <-]. split; [|done].
    exists e3, "projects". split; [done|]. set_solver. }
  destruct (remote_getVarious "tags" "name" w3) as [[ts [e4|]] w4];
    cbn [fst snd].
  { split; [done|]. intros e [= <-]. split; [|done].
    exists e4, "updateTags". split; [done|]. set_solver. }
  destruct (remote_getVarious "users" "email" w4) as [[us [e6|]] w6];
    cbn [fst snd]; [|done].
  split; [done|]. intros e [= <-]. split; [|done].
  exists e6, "users". split; [done|]. set_solver.
Qed.

(** X18: when the fetch of the workspaces fails, [update] returns its error
    wrapped with the label [workspaces]; it has made that one fetch and no
    other remote call, it has overwritten the workspaces with what the
    fetch returned, and every other field, the default workspace included,
    is as before. *)
Theorem update_workspaces_failure c (w : World) (e : error) :
  (remote_getVarious "workspaces" "name" w).1.2 = Some e →
  refresh (c, w)
  = (Ret (Some (Wrap e "workspaces")),
     (with_workspaces (remote_getVarious "workspaces" "name" w).1.1 c,
      (remote_getVarious "workspaces" "name" w).2),
     [EvLock; EvGet "workspaces" "name"; EvWrite FWorkspaces; EvUnlock]).
Proof.
  intros He.
  unfold update, bind, defer, getVarious, store, Lock, Unlock, emit, ret.
  cbn [fst snd].
  destruct (remote_getVarious "workspaces" "name" w) as [[ws e1] w1].
  cbn [fst snd] in *. subst e1. reflexivity.
Qed.

(** X19: a successful [update] that finds a workspace named [domain]
    replaces the whole cache: from any other cache, against the same
    remote, it returns the same and leaves the same cache and remote. *)
Theorem update_replaces_cache c c' (w : World) :
  returned (refresh (c, w)) None →
  domain ∈ Name <$> (remote_getVarious "workspaces" "name" w).1.1 →
  (refresh (c', w)).1 = (refresh (c, w)).1.
Proof.
  unfold returned. rewrite !update_run. cbn zeta.
  destruct (remote_getVarious "workspaces" "name" w) as [[ws [e|]] w1];
    cbn [fst snd]; [done|].
  intros Hok Hin.
  rewrite (resolve_match_any domain ws (defaultWork c') (defaultWork c) Hin).
  destruct (String.eqb (resolve domain ws (defaultWork c)) ""); [done|].
  destruct (remote_getVarious _ "name" w1) as [[ps [e|]] w3];
    cbn [fst snd] in *; [done|].
  destruct (remote_getVarious "tags" "name" w3) as [[ts [e|]] w4];
    cbn [fst snd] in *; [done|].
  destruct (remote_getVarious "users" "email" w4) as [[us [e|]] w6];
    cbn [fst snd] in *; [done|].
  reflexivity.
Qed.

(** X20: when several fetched workspaces are named [domain], the last one
    wins: once the workspaces have been fetched, the default workspace is
    the Id of the last workspace of that name, however [update] ends. *)
Theorem update_last_match c (w : World) (pre post : list Basic) (wk : Basic) :
  (remote_getVarious "workspaces" "name" w).1 = (pre ++ wk :: post, None) →
  Name wk = domain →
  domain ∉ Name <$> post →
  defaultWork (final (refresh (c, w))).1 = Id wk.
Proof.
  intros Hws Hn Hpost. unfold final. rewrite update_run. cbn zeta.
  destruct (remote_getVarious "workspaces" "name" w) as [[ws e1] w1].
  cbn [fst snd] in *. injection Hws as -> ->.
  rewrite (resolve_last_match domain pre wk post _ Hn Hpost).
  destruct (String.eqb (Id wk) ""); [done|].
  destruct (remote_getVarious _ "name" w1) as [[ps [e|]] w3];
    cbn [fst snd]; [done|].
  destruct (remote_getVarious "tags" "name" w3) as [[ts [e|]] w4];
    cbn [fst snd]; [done|].
  destruct (remote_getVarious "users" "email" w4) as [[us [e|]] w6];
    cbn [fst snd]; done.
Qed.

(** X21: after a successful [update] no cached user has an [@] in its
    Email, so that [UserId] gives the empty string for every address with
    an [@]; when the fetched users have pairwise distinct Ids, [User] gives
    for the Id of every cached user its Email, the local part, and
    [User(UserId(email))] is [email] for the Email of every cached user. *)
Theorem update_users c (w : World) :
  returned (refresh (c, w)) None →
  (∀ u, u ∈ users (final (refresh (c, w))).1 → "@"%char ∉ chars (Email u))
  ∧ (∀ email, "@"%char ∈ chars email →
       returned (UserId email (final (refresh (c, w)))) "")
  ∧ (NoDup (Id <$> users (final (refresh (c, w))).1) →
     ∀ u, u ∈ users (final (refresh (c, w))).1 →
       returned (User (Id u) (final (refresh (c, w)))) (Email u)
       ∧ ∃ i, returned (UserId (Email u) (final (refresh (c, w)))) i
              ∧ returned (User i (final (refresh (c, w)))) (Email u)).
Proof.
  intros Hok. destruct (update_ok_inv c w Hok) as (ws & ps & ts & us & w' & _ & _ & ->).
  unfold final. cbn [fst snd users].
  assert (∀ u, u ∈ local_part <$> us → "@"%char ∉ chars (Email u)) as Hno.
  { intros u Hu. apply list_elem_of_fmap in Hu as (u0 & -> & _).
    apply strings_Split_hd. }
  split; [done|]. split.
  - intros email Hat. rewrite UserId_run. unfold returned. cbn [fst users].
    destruct (scan Email email (local_part <$> us)) as [b|] eqn:Hs; [|done].
    apply scan_Some in Hs as [Hb He]. exfalso.
    apply (Hno b Hb). by rewrite He.
  - intros Hnd u Hu. setoid_rewrite User_run. rewrite UserId_run.
    unfold returned. cbn [fst users usermap]. setoid_rewrite map_read_Some.
    assert (∀ b, b ∈ local_part <$> us →
              index_by Email (local_part <$> us) ∅ !! Id b = Some (Email b))
      as Hidx by (intros b Hb; by apply index_by_lookup).
    split; [by rewrite (Hidx u Hu)|].
    destruct (scan Email (Email u) (local_part <$> us)) as [b|] eqn:Hs.
    + apply scan_Some in Hs as [Hb He]. exists (Id b). split; [done|].
      by rewrite (Hidx b Hb), He.
    + apply scan_None in Hs. exfalso. apply Hs. by apply list_elem_of_fmap_2.
Qed.

(** X22: [updateTags] returns the error of the fetch as it is; the tags are
    then what the failed fetch returned while the tag index is the one of
    before the call.  When the fetch succeeds the index holds the fetched
    Ids only: [Tag] gives the empty string for every Id that no fetched
    tag has, whatever was cached before. *)
Theorem updateTags_outcome c (w : World) :
  (∀ e, (remote_getVarious "tags" "name" w).1.2 = Some e →
     returned (updateTags remote_getVarious (c, w)) (Some e)
     ∧ tags (final (updateTags remote_getVarious (c, w))).1
       = (remote_getVarious "tags" "name" w).1.1
     ∧ tagmap (final (updateTags remote_getVarious (c, w))).1 = tagmap c)
  ∧ ((remote_getVarious "tags" "name" w).1.2 = None →
     returned (updateTags remote_getVarious (c, w)) None
     ∧ tags (final (updateTags remote_getVarious (c, w))).1
       = (remote_getVarious "tags" "name" w).1.1
     ∧ ∀ i, i ∉ Id <$> (remote_getVarious "tags" "name" w).1.1 →
         returned (Tag i (final (updateTags remote_getVarious (c, w)))) "").
Proof.
  unfold returned, final. rewrite updateTags_run. cbn zeta.
  destruct (remote_getVarious "tags" "name" w) as [[ts [e|]] w'];
    cbn [fst snd]; split; try done.
  - by intros e' [= <-].
  - intros _. split; [done|]. split; [done|]. intros i Hi.
    rewrite Tag_run. cbn [fst tagmap with_tagmap]. rewrite map_read_Some.
    by rewrite (index_by_absent Name ts ∅ i Hi).
Qed.

End MoreUpdate.

(** ** The remote calls and the writes of [update] *)

Section Traces.
Context {World : Type}.
Local Abbreviation M := (@M World).

Lemma bind_filter P {A B} (m : M A) (k : A → M B) st :
  List.filter P (bind m k st).2
  = List.filter P (m st).2
    ++ match (m st).1 with
       | (Ret a, st') => List.filter P (k a st').2
       | _ => []
       end.
Proof.
  rewrite bind_snd. destruct (m st) as [[[a| |] st'] t]; cbn [fst snd].
  - apply List.filter_app.
  - by rewrite app_nil_r.
  - by rewrite app_nil_r.
Qed.

Lemma writer_filter P {A} (body : M A) st :
  P EvLock = false → P EvUnlock = false →
  List.filter P (bind Lock (λ _, defer Unlock body) st).2
  = List.filter P (body st).2.
Proof.
  intros HL HU. unfold bind, defer, Lock, Unlock, emit.
  destruct (body st) as [[[a| |] st'] t]; cbn [fst snd app List.filter].
  all: rewrite HL, ?List.filter_app; cbn [List.filter]; rewrite ?HU.
  all: by rewrite ?app_nil_r.
Qed.

Lemma free_of_filter P {A} (m : M A) st :
  free_of P m → List.filter P (m st).2 = [].
Proof.
  intros H. specialize (H st). induction (m st).2 as [|e t IH]; [done|].
  cbn [forallb List.filter] in *. apply andb_prop in H as [He Ht].
  destruct (P e); [done|]. by apply IH.
Qed.

End Traces.

Section UpdateTrace.
Context {World : Type}.
Variable remote_getVarious :
  string → string → World → (list Basic * option error) * World.
Variable domain : string.

Local Abbreviation refresh := (update remote_getVarious domain).

Lemma updateTags_fetches st :
  fetches (updateTags remote_getVarious st).2 = [EvGet "tags" "name"].
Proof.
  destruct st as [c w]. unfold fetches, updateTags.
  rewrite bind_filter. unfold getVarious at 1 2. cbn [fst snd].
  destruct (remote_getVarious "tags" "name" w) as [[ts e] w'].
  cbn [fst snd List.filter is_get]. rewrite bind_filter.
  cbn [fst snd store List.filter is_get app]. destruct e as [e|]; [done|].
  rewrite free_of_filter; [done|]. free_of_steps.
Qed.

(** X24: [update] fetches the workspaces, the projects of the default
    workspace, the tags and the users, in this order, and stops at the
    first fetch that fails or, before the projects, when no default
    workspace is resolved. *)
Theorem update_fetches c (w : World) :
  fetches (events (refresh (c, w)))
  = let r1 := remote_getVarious "workspaces" "name" w in
    let dw := resolve domain r1.1.1 (defaultWork c) in
    let path := "workspaces/" +:+ dw +:+ "/projects" in
    let r3 := remote_getVarious path "name" r1.2 in
    let r4 := remote_getVarious "tags" "name" r3.2 in
    EvGet "workspaces" "name"
    :: (if r1.1.2 is Some _ then [] else
        if String.eqb dw "" then [] else
        EvGet path "name"
        :: (if r3.1.2 is Some _ then [] else
            EvGet "tags" "name"
            :: (if r4.1.2 is Some _ then [] else [EvGet "users" "email"]))).
Proof.
  unfold fetches, events, update. rewrite writer_filter by done.
  rewrite bind_filter. unfold getVarious at 1 2. cbn [fst snd]. cbn zeta.
  destruct (remote_getVarious "workspaces" "name" w) as [[ws e1] w1].
  cbn [fst snd List.filter is_get app]. f_equal.
  rewrite bind_filter. cbn [fst snd store List.filter is_get app].
  destruct e1 as [e1|]; [done|].
  rewrite bind_filter. cbn [fst snd load List.filter is_get app workspaces
                            with_workspaces].
  rewrite bind_filter, resolve_loop. cbn [defaultWork with_workspaces].
  rewrite free_of_filter by free_of_steps. cbn [app].
  rewrite bind_filter. cbn [fst snd load List.filter is_get app defaultWork
                            with_defaultWork].
  destruct (String.eqb (resolve domain ws (defaultWork c)) ""); [done|].
  rewrite bind_filter. cbn [fst snd load List.filter is_get app defaultWork
                            with_defaultWork].
  rewrite bind_filter. unfold getVarious at 1 2. cbn [fst snd].
  destruct (remote_getVarious _ "name" w1) as [[ps e3] w3].
  cbn [fst snd List.filter is_get app]. f_equal.
  rewrite bind_filter. cbn [fst snd store List.filter is_get app].
  destruct e3 as [e3|]; [done|].
  rewrite bind_filter, updateTags_run. cbn zeta.
  change (List.filter is_get (updateTags remote_getVarious ?st).2)
    with (fetches (updateTags remote_getVarious st).2).
  rewrite updateTags_fetches.
  destruct (remote_getVarious "tags" "name" w3) as [[ts e4] w4].
  cbn [fst snd app]. f_equal. destruct e4 as [e4|]; [done|].
  rewrite bind_filter. unfold getVarious at 1 2. cbn [fst snd].
  destruct (remote_getVarious "users" "email" w4) as [[us e6] w6].
  cbn [fst snd List.filter is_get app]. f_equal.
  rewrite bind_filter. cbn [fst snd store List.filter is_get app].
  destruct e6 as [e6|]; [done|].
  rewrite free_of_filter; [done|]. free_of_steps.
Qed.

End UpdateTrace.

Section DefaultWorkWrites.
Context {World : Type}.
Variable remote_getVarious :
  string → string → World → (list Basic * option error) * World.
Variable domain : string.

Lemma resolve_loop_writes ws st :
  List.filter is_defaultWork_write
    (for_range (World := World) ws (λ w0,
       if String.eqb (Name w0) domain
       then store FDefaultWork (with_defaultWork (Id w0))
       else ret tt) st).2
  = replicate (count_named domain ws) (EvWrite FDefaultWork).
Proof.
  revert st. induction ws as [|a ws IH]; intros st; [done|].
  cbn [for_range]. rewrite bind_filter. unfold count_named.
  rewrite filter_cons. destruct (String.eqb (Name a) domain) eqn:E.
  - apply String.eqb_eq in E. rewrite decide_True by done.
    cbn [store fst snd List.filter is_defaultWork_write app length replicate].
    f_equal. apply IH.
  - apply String.eqb_neq in E. rewrite decide_False by done.
    cbn [ret fst snd List.filter app]. apply IH.
Qed.

(** X25: during [update] the default workspace is written once for each
    fetched workspace named [domain], and at no other point: once when one
    workspace has the name, not at all when none has it or when the fetch
    of the workspaces fails. *)
Theorem update_defaultWork_writes c (w : World) :
  List.filter is_defaultWork_write
    (events (update remote_getVarious domain (c, w)))
  = if (remote_getVarious "workspaces" "name" w).1.2 is Some _ then []
    else replicate
           (count_named domain (remote_getVarious "workspaces" "name" w).1.1)
           (EvWrite FDefaultWork).
Proof.
  unfold events, update. rewrite writer_filter by done.
  rewrite bind_filter. unfold getVarious at 1 2. cbn [fst snd].
  destruct (remote_getVarious "workspaces" "name" w) as [[ws e1] w1].
  cbn [fst snd List.filter is_defaultWork_write app].
  rewrite bind_filter.
  cbn [fst snd store List.filter is_defaultWork_write app].
  destruct e1 as [e1|]; [done|].
  rewrite bind_filter.
  cbn [fst snd load List.filter is_defaultWork_write app workspaces
       with_workspaces].
  rewrite bind_filter, resolve_loop, resolve_loop_writes.
  rewrite free_of_filter; [by rewrite app_nil_r|].
  free_of_steps.
Qed.

End DefaultWorkWrites.

(** ** The maps of the cache *)

Section Maps.
Context {World : Type}.
Variable remote_getVarious :
  string → string → World → (list Basic * option error) * World.
Variable remote_runPost :
  string → string → list (string * string) → World
  → (string * option error) * World.
Variable json_Unmarshal : string → option Basic.
Variable domain : string.

(** X23: a successful [update] makes the three maps of the cache, and once
    they are made they stay made and nothing panics: on a cache with made
    maps, [update], [updateTags], [CreateTag] and [AddSection] leave made
    maps, and [CreateTag] and [AddSection] do not panic. *)
Theorem maps_made_invariant (c : acache) (w : World) :
  (returned (update remote_getVarious domain (c, w)) None →
     maps_made (final (update remote_getVarious domain (c, w))).1)
  ∧ (maps_made c →
     maps_made (final (update remote_getVarious domain (c, w))).1
     ∧ maps_made (final (updateTags remote_getVarious (c, w))).1
     ∧ (∀ x, (CreateTag remote_runPost json_Unmarshal x (c, w)).1.1 ≠ Panic
             ∧ maps_made
                 (final (CreateTag remote_runPost json_Unmarshal x (c, w))).1)
     ∧ (∀ p sec, (AddSection p sec (c, w)).1.1 ≠ Panic
                 ∧ maps_made (final (AddSection p sec (c, w))).1)).
Proof.
  split.
  - intros Hok.
    destruct (update_ok_inv _ _ c w Hok) as (ws & ps & ts & us & w' & _ & _ & ->).
    unfold final, maps_made. cbn. eauto.
  - intros (Htm & Hum & Hsec). split; [|split; [|split]].
    + unfold final. rewrite update_run. cbn zeta.
      destruct (remote_getVarious "workspaces" "name" w) as [[ws [e|]] w1];
        cbn [fst snd]; [done|].
      destruct (String.eqb (resolve domain ws (defaultWork c)) ""); [done|].
      destruct (remote_getVarious _ "name" w1) as [[ps [e|]] w3];
        cbn [fst snd]; [done|].
      destruct (remote_getVarious "tags" "name" w3) as [[ts [e|]] w4];
        cbn [fst snd]; [done|].
      destruct (remote_getVarious "users" "email" w4) as [[us [e|]] w6];
        cbn [fst snd]; unfold maps_made; cbn; eauto.
    + unfold final. rewrite updateTags_run. cbn zeta.
      destruct (remote_getVarious "tags" "name" w) as [[ts [e|]] w'];
        cbn [fst snd]; unfold maps_made; cbn; eauto.
    + intros x. unfold final. rewrite CreateTag_run. cbn zeta.
      destruct (scan Name x (tags c)); cbn [fst snd]; [done|].
      destruct (remote_runPost _ _ _ w) as [[resp [e|]] w']; cbn [fst snd];
        [done|].
      destruct (json_Unmarshal resp) as [d|]; cbn [fst snd]; [|done].
      destruct Htm as [m Hm]. rewrite Hm. cbn [fst snd].
      split; [done|]. unfold maps_made. cbn. eauto.
    + intros p sec. destruct Hsec as [g Hg].
      destruct (strings_HasSuffix (Name sec) ":") eqn:Hsuf.
      * rewrite (AddSection_accepted _ _ _ _ _ Hg Hsuf).
        split; [done|]. unfold final, maps_made. cbn. eauto.
      * rewrite (AddSection_rejected _ _ _ _ _ Hg Hsuf).
        split; [done|]. unfold final, maps_made. cbn. eauto.
Qed.

End Maps.

(** * Further properties on concrete inputs *)

(** [AddSection] before any [update]. *)
Lemma AddSection_nil_sections_panics_witness :
  sections zero_cache = None
  ∧ (AddSection "p1" (mkBasic "1" "Done" "") (zero_cache, silent)).1.1 = Panic.
Proof.
  split; [reflexivity|].
  apply (AddSection_nil_sections_panics "p1" (mkBasic "1" "Done" "")
           zero_cache silent eq_refl).
Defined.

(** A section for project [p2] leaves project [p1] alone. *)
Lemma AddSection_frame_witness :
  is_Some (sections board_cache)
  ∧ tags (final (AddSection "p2" (mkBasic "3" "Next Up:" "")
                   (board_cache, silent))).1 = tags board_cache.
Proof.
  assert (is_Some (sections board_cache)) as H by (by eexists).
  split; [exact H|].
  destruct (AddSection_frame "p2" (mkBasic "3" "Next Up:" "") board_cache
              silent H) as (_ & Ht & _).
  exact Ht.
Defined.

(** Section [3] is new in project [p1]. *)
Lemma AddSection_appends_witness :
  ("3" ∉ Id <$> entries board_cache "p1")
  ∧ entries (final (AddSection "p1" (mkBasic "3" "Next Up:" "")
                      (board_cache, silent))).1 "p1"
    = [mkBasic "1" "InProgress" ""; mkBasic "2" "Done" "";
       mkBasic "3" "NextUp" ""].
Proof.
  assert ("3" ∉ Id <$> entries board_cache "p1") as Hnew.
  { refine (bool_decide_unpack _ _). vm_compute. exact I. }
  split; [exact Hnew|].
  destruct (AddSection_appends "p1" (mkBasic "3" "Next Up:" "") board_cache
              silent (ex_intro _ _ eq_refl) eq_refl) as [Happ _].
  exact (Happ Hnew).
Defined.

Lemma AddSection_SectionId_witness :
  returned (SectionId "p1" "NextUp"
              (final (AddSection "p1" (mkBasic "3" "Next Up:" "")
                        (board_cache, silent)))) "3".
Proof.
  apply (AddSection_SectionId "p1" (mkBasic "3" "Next Up:" "") board_cache
           silent (ex_intro _ _ eq_refl) eq_refl).
  intros b Hb Hn.
  change (b ∈ [mkBasic "1" "InProgress" ""; mkBasic "2" "Done" ""]) in Hb.
  apply elem_of_cons in Hb as [->|Hb]; [discriminate Hn|].
  apply elem_of_cons in Hb as [->|Hb]; [discriminate Hn|].
  by apply elem_of_nil in Hb.
Defined.

Lemma acme_cache_no_entries p : entries acme_cache p = [].
Proof. unfold entries, map_read. cbn. by rewrite lookup_empty. Qed.

Lemma AddSection_ids_unique_witness :
  section_ids_unique acme_cache
  ∧ section_ids_unique
      (final (AddSection "p1" (mkBasic "1" "Done:" "") (acme_cache, silent))).1.
Proof.
  assert (section_ids_unique acme_cache) as H.
  { intros p. rewrite acme_cache_no_entries. constructor. }
  split; [exact H|].
  apply (AddSection_ids_unique "p1" (mkBasic "1" "Done:" "") acme_cache silent
           "Done" H).
  reflexivity.
Defined.

Lemma AddSection_names_alnum_witness :
  section_names_alnum acme_cache
  ∧ alnum_only "Done"
  ∧ section_names_alnum
      (final (AddSection "p1" (mkBasic "1" "Done:" "") (acme_cache, silent))).1.
Proof.
  assert (section_names_alnum acme_cache) as H.
  { intros p b. rewrite acme_cache_no_entries. intros Hb.
    by apply elem_of_nil in Hb. }
  split; [exact H|].
  apply (AddSection_names_alnum "p1" (mkBasic "1" "Done:" "") acme_cache silent
           "Done" H).
  reflexivity.
Defined.

(** The creation call fails. *)
Lemma CreateTag_failure_witness :
  ("x" ∉ Name <$> tags acme_cache)
  ∧ returned (CreateTag script_runPost script_Unmarshal "x"
                (acme_cache, post_down)) ""
  ∧ final (CreateTag script_runPost script_Unmarshal "x" (acme_cache, post_down))
    = (acme_cache, silent).
Proof.
  assert ("x" ∉ Name <$> tags acme_cache) as H by apply not_elem_of_nil.
  split; [exact H|].
  destruct (CreateTag_failure script_runPost script_Unmarshal "x" acme_cache
              post_down H) as (Hret & Hfin & _).
  - left. discriminate.
  - split; [exact Hret | exact Hfin].
Defined.

(** The remote creates tag [t9]. *)
Lemma CreateTag_created_witness :
  returned (CreateTag script_runPost script_Unmarshal "x"
              (acme_cache, creates_x)) "t9"
  ∧ returned (TagId "x"
       (final (CreateTag script_runPost script_Unmarshal "x"
                 (acme_cache, creates_x)))) "t9".
Proof.
  destruct (CreateTag_created script_runPost script_Unmarshal "x" acme_cache
              creates_x ∅ (mkBasic "t9" "x" ""))
    as (Hret & _ & _ & _ & Hid).
  - apply not_elem_of_nil.
  - reflexivity.
  - reflexivity.
  - reflexivity.
  - split; [exact Hret | exact Hid].
Defined.

(** [CreateTag] before any [update]. *)
Lemma CreateTag_nil_tagmap_panics_witness :
  tagmap zero_cache = None
  ∧ (CreateTag script_runPost script_Unmarshal "x" (zero_cache, creates_x)).1.1
    = Panic.
Proof.
  split; [reflexivity|].
  destruct (CreateTag_nil_tagmap_panics script_runPost script_Unmarshal "x"
              zero_cache creates_x (mkBasic "t9" "x" ""))
    as (Hp & _).
  - apply not_elem_of_nil.
  - reflexivity.
  - reflexivity.
  - reflexivity.
  - exact Hp.
Defined.

(** Tag [1] is the first cached tag named [x]. *)
Lemma CreateTag_cached_witness :
  scan Name "x" (tags twin_state.1) = Some tag_x1
  ∧ returned (CreateTag script_runPost script_Unmarshal "x"
                (twin_state.1, creates_x)) "1"
  ∧ final (CreateTag script_runPost script_Unmarshal "x"
             (twin_state.1, creates_x)) = (twin_state.1, creates_x).
Proof.
  assert (scan Name "x" (tags twin_state.1) = Some tag_x1) as H
    by (vm_compute; reflexivity).
  split; [exact H|].
  destruct (CreateTag_cached script_runPost script_Unmarshal "x" twin_state.1
              creates_x tag_x1 H) as (Hrun & _).
  rewrite Hrun. split; reflexivity.
Defined.

Lemma lookup_hit_witness :
  returned (ProjectId "Proj" (acme_cache, silent)) "p1"
  ∧ ∃ b, b ∈ projects acme_cache ∧ Name b = "Proj" ∧ Id b = "p1".
Proof.
  split; [reflexivity|].
  destruct (lookup_hit "Proj" "p1" "p1" acme_cache silent) as (Hp & _).
  - discriminate.
  - apply Hp. reflexivity.
Defined.

Lemma update_resets_sections_witness :
  returned (update script_getVarious "acme" (board_cache, plain_tags)) None
  ∧ entries (board_cache) "p1" ≠ []
  ∧ entries
      (final (update script_getVarious "acme" (board_cache, plain_tags))).1
      "p1" = [].
Proof.
  split; [reflexivity|]. split; [vm_compute; discriminate|].
  destruct (update_resets_sections script_getVarious "acme" board_cache
              plain_tags eq_refl) as (Hent & _).
  exact (Hent "p1").
Defined.

Lemma update_workspaces_failure_witness :
  returned (update script_getVarious "acme" (acme_cache, workspaces_down))
           (Some (Wrap (RemoteError "timeout") "workspaces"))
  ∧ defaultWork
      (final (update script_getVarious "acme" (acme_cache, workspaces_down))).1
    = "w1".
Proof.
  rewrite (update_workspaces_failure script_getVarious "acme" acme_cache
             workspaces_down (RemoteError "timeout") eq_refl).
  split; reflexivity.
Defined.

Lemma update_replaces_cache_witness :
  returned (update script_getVarious "acme" (zero_cache, plain_tags)) None
  ∧ (update script_getVarious "acme" (board_cache, plain_tags)).1
    = (update script_getVarious "acme" (zero_cache, plain_tags)).1.
Proof.
  split; [reflexivity|].
  apply (update_replaces_cache script_getVarious "acme" zero_cache board_cache
           plain_tags eq_refl).
  apply elem_of_cons. left. reflexivity.
Defined.

Lemma update_last_match_witness :
  defaultWork (final (update script_getVarious "acme" (zero_cache, two_acme))).1
  = "w3".
Proof.
  apply (update_last_match script_getVarious "acme" zero_cache two_acme
           [mkBasic "w1" "acme" ""; mkBasic "w2" "other" ""] []
           (mkBasic "w3" "acme" "") eq_refl eq_refl).
  apply not_elem_of_nil.
Defined.

Lemma update_users_witness :
  returned (update script_getVarious "acme" (zero_cache, plain_tags)) None
  ∧ returned (UserId "jane.doe@example.com"
       (final (update script_getVarious "acme" (zero_cache, plain_tags)))) "".
Proof.
  split; [reflexivity|].
  destruct (update_users script_getVarious "acme" zero_cache plain_tags eq_refl)
    as (_ & Hat & _).
  apply Hat. refine (bool_decide_unpack _ _). vm_compute. exact I.
Defined.
